(** * SslStreamSocket: the TLS adapter of net/SslSocket.hpp

    A shallow embedding of [class SslStreamSocket] and of the calls it
    makes into the TLS engine (OpenSSL) and into its base class
    [StreamSocket].  The member functions are written in a small
    state-and-failure monad over the object's fields; the engine and the
    base class are interfaces (type classes), so every statement below is
    about all engines and all base transports. *)

From Stdlib Require Import ZArith List String Bool Lia DecimalString.
Import ListNotations.
Local Open Scope Z_scope.

(** ** Constants of the system headers

    [openssl/ssl.h], [errno.h] and [poll.h] (Linux values).  The code only
    compares against them. *)

Definition SSL_ERROR_NONE : Z := 0.
Definition SSL_ERROR_SSL : Z := 1.
Definition SSL_ERROR_WANT_READ : Z := 2.
Definition SSL_ERROR_WANT_WRITE : Z := 3.
Definition SSL_ERROR_WANT_X509_LOOKUP : Z := 4.
Definition SSL_ERROR_SYSCALL : Z := 5.
Definition SSL_ERROR_ZERO_RETURN : Z := 6.
Definition SSL_ERROR_WANT_CONNECT : Z := 7.
Definition SSL_ERROR_WANT_ACCEPT : Z := 8.

Definition EINTR : Z := 4.
Definition EAGAIN : Z := 11.
Definition ECONNRESET : Z := 104.

Definition POLLIN : Z := 1.
Definition POLLOUT : Z := 4.

(** ** The private enum [SslWantsTo] *)

Module SslWantsTo.
Inductive t : Set := Neither | Read | Write.

Definition eqb (a b : t) : bool :=
  match a, b with
  | Neither, Neither | Read, Read | Write, Write => true
  | _, _ => false
  end.
End SslWantsTo.

(** ** The TLS engine

    [E] is the state of everything outside the object that the engine
    calls touch: the [SSL*] handle with its BIO, the thread's error queue
    and the thread's [errno].  A call returns its [int] result and the new
    state.  [SSL_get_error] only inspects.  [ERR_get_error] removes and
    returns the oldest entry of the error queue, 0 when the queue is
    empty.  The payload bytes behind [buf] are never looked at by the
    adapter and are left out. *)

Class Engine (E : Type) : Type := {
  errno : E -> Z;
  SSL_do_handshake : E -> Z * E;
  SSL_read : Z -> E -> Z * E;
  SSL_write : Z -> E -> Z * E;
  SSL_shutdown : E -> Z * E;
  SSL_get_error : Z -> E -> Z;
  ERR_get_error : E -> Z * E;
  ERR_error_string : Z -> string
}.

(** The engine calls an operation made, oldest first, with their results. *)

Inductive EngineCall : Set :=
| Call_SSL_do_handshake (rc : Z)
| Call_SSL_read (len rc : Z)
| Call_SSL_write (len rc : Z)
| Call_SSL_shutdown (rc : Z)
| Call_SSL_get_error (rc err : Z)
| Call_ERR_get_error (err : Z).

Definition is_handshake (c : EngineCall) : bool :=
  match c with Call_SSL_do_handshake _ => true | _ => false end.

Definition is_read (c : EngineCall) : bool :=
  match c with Call_SSL_read _ _ => true | _ => false end.

Definition is_shutdown (c : EngineCall) : bool :=
  match c with Call_SSL_shutdown _ => true | _ => false end.

(** ** The base class

    [StreamSocket] is declared in Socket.hpp.  Its default
    [readIncomingData] and [writeOutgoingData] reach the engine only
    through the virtual [readData] and [writeData], and the fields of
    [SslStreamSocket] are private to the derived class, so a default
    implementation is a finite tree of such calls: each node names the
    length it passes and continues with the call's result and the
    [errno] it then sees.  An exception thrown by a virtual call leaves
    through the default implementation. *)

Inductive BaseCode (R : Type) : Type :=
| Finish (r : R)
| VirtualReadData (len : Z) (k : Z -> Z -> BaseCode R)
| VirtualWriteData (len : Z) (k : Z -> Z -> BaseCode R).

Arguments Finish {R} r.
Arguments VirtualReadData {R} len k.
Arguments VirtualWriteData {R} len k.

Class Transport (B : Type) : Type := {
  isCorrectThread : B -> bool;
  StreamSocket_getPollEvents : B -> Z;
  StreamSocket_readIncomingData : B -> BaseCode (bool * B);
  StreamSocket_writeOutgoingData : B -> BaseCode B
}.

(** ** Outcomes of a member function *)

Inductive outcome (A : Type) : Type :=
| Returns (a : A)
| Throws (what : string)
| Aborts
| Spins.

Arguments Returns {A} a.
Arguments Throws {A} what.
Arguments Aborts {A}.
Arguments Spins {A}.

(** [Throws] is a [std::runtime_error] leaving the function, [Aborts] a
    failed [assert], [Spins] a handshake loop that was still being
    interrupted when the fuel ran out. *)

Definition to_string (n : Z) : string := NilZero.string_of_int (Z.to_int n).

Section Object.

Context {E B : Type} `{Engine E} `{Transport B}.

(** The object: the [StreamSocket] subobject, the three private fields,
    and the log of engine calls made so far. *)

Record SslStreamSocket : Type := mkSocket {
  base : B;
  _ssl : E;
  _sslWantsTo : SslWantsTo.t;
  _doHandshake : bool;
  calls : list EngineCall
}.

Definition set_base (b : B) (s : SslStreamSocket) : SslStreamSocket :=
  mkSocket b (_ssl s) (_sslWantsTo s) (_doHandshake s) (calls s).

Definition set_sslWantsTo (v : SslWantsTo.t) (s : SslStreamSocket) : SslStreamSocket :=
  mkSocket (base s) (_ssl s) v (_doHandshake s) (calls s).

Definition set_doHandshake (v : bool) (s : SslStreamSocket) : SslStreamSocket :=
  mkSocket (base s) (_ssl s) (_sslWantsTo s) v (calls s).

Definition engine_step (e : E) (c : EngineCall) (s : SslStreamSocket) : SslStreamSocket :=
  mkSocket (base s) e (_sslWantsTo s) (_doHandshake s) (calls s ++ [c]).

(** The member initialisers of the constructor. *)

Definition constructed (b : B) (e : E) : SslStreamSocket :=
  mkSocket b e SslWantsTo.Neither true [].

(** *** The monad *)

Definition M (A : Type) : Type := SslStreamSocket -> outcome A * SslStreamSocket.

Definition ret {A} (a : A) : M A := fun s => (Returns a, s).

Definition bind {A C} (m : M A) (f : A -> M C) : M C :=
  fun s =>
    match m s with
    | (Returns a, s') => f a s'
    | (Throws what, s') => (Throws what, s')
    | (Aborts, s') => (Aborts, s')
    | (Spins, s') => (Spins, s')
    end.

Definition throw {A} (what : string) : M A := fun s => (Throws what, s).

Definition assert (b : bool) : M unit :=
  fun s => if b then (Returns tt, s) else (Aborts, s).

Definition get {A} (f : SslStreamSocket -> A) : M A := fun s => (Returns (f s), s).

Definition modify (f : SslStreamSocket -> SslStreamSocket) : M unit :=
  fun s => (Returns tt, f s).

(** An engine call: run it on [_ssl], log it, hand back its result. *)

Definition engine_call (f : E -> Z * E) (c : Z -> EngineCall) : M Z :=
  fun s => let (rc, e) := f (_ssl s) in (Returns rc, engine_step e (c rc) s).

Definition engine_query (f : E -> Z) (c : Z -> EngineCall) : M Z :=
  fun s => let rc := f (_ssl s) in (Returns rc, engine_step (_ssl s) (c rc) s).

End Object.

Declare Scope sock_scope.
Delimit Scope sock_scope with sock.
Notation "x <- m ;; k" := (bind m (fun x => k))
  (at level 61, m at next level, right associativity) : sock_scope.
Notation "m ;; k" := (bind m (fun _ => k))
  (at level 61, right associativity) : sock_scope.

Local Open Scope sock_scope.

Section Members.

Context {E B : Type} `{Engine E} `{Transport B}.

Abbreviation Sock := (@SslStreamSocket E B).
Abbreviation M := (@M E B).

Definition assertCorrectThread : M unit :=
  ok <- get (fun s => isCorrectThread (base s));; assert ok.

(** [int handleSslState(const int rc)]: first the [switch (sslError)]
    it ends with, then the function. *)

Definition classify_error (rc : Z) : M Z :=
  sslError <- engine_query (SSL_get_error rc) (Call_SSL_get_error rc);;
  if sslError =? SSL_ERROR_ZERO_RETURN then
    (* Shutdown complete, we're disconnected. *)
    ret 0
  else if sslError =? SSL_ERROR_WANT_READ then
    modify (set_sslWantsTo SslWantsTo.Read);;
    ret rc
  else if sslError =? SSL_ERROR_WANT_WRITE then
    modify (set_sslWantsTo SslWantsTo.Write);;
    ret rc
  else if (sslError =? SSL_ERROR_WANT_CONNECT)
          || (sslError =? SSL_ERROR_WANT_ACCEPT)
          || (sslError =? SSL_ERROR_WANT_X509_LOOKUP) then
    (* Unexpected. *)
    ret rc
  else
    e <- get (fun s => errno (_ssl s));;
    if (sslError =? SSL_ERROR_SYSCALL) && negb (e =? 0) then
      (* Posix API error, let the caller handle. *)
      ret rc
    else
      (* SSL_ERROR_SYSCALL with errno 0 falls through to the default. *)
      bioError <- engine_call ERR_get_error Call_ERR_get_error;;
      if bioError =? 0 then
        if rc =? 0 then
          (* Socket closed. *)
          ret 0
        else if rc =? -1 then
          throw "SSL Socket closed unexpectedly."%string
        else
          throw ("SSL BIO reported error [" ++ to_string rc ++ "].")%string
      else
        (* char buf[512]; ERR_error_string_n(bioError, buf, sizeof(buf)); *)
        throw (substring 0 511 (ERR_error_string bioError)).

Definition handleSslState (rc : Z) : M Z :=
  assertCorrectThread;;
  if rc >? 0 then
    (* Success: Reset so we can do either. *)
    modify (set_sslWantsTo SslWantsTo.Neither);;
    ret rc
  else
    classify_error rc.

(** The [do ... while (rc < 0 && errno == EINTR)] loop of [doHandshake]. *)

Fixpoint handshake_loop (fuel : nat) : M Z :=
  match fuel with
  | O => fun s => (Spins, s)
  | S fuel' =>
      rc <- engine_call SSL_do_handshake Call_SSL_do_handshake;;
      e <- get (fun s => errno (_ssl s));;
      if (rc <? 0) && (e =? EINTR) then handshake_loop fuel' else ret rc
  end.

(** [int doHandshake()].  [return (rc != 0)] in a function returning
    [int] yields 1 for a non-zero [rc] and 0 for a zero one. *)

Definition doHandshake (fuel : nat) : M Z :=
  assertCorrectThread;;
  pending <- get _doHandshake;;
  if pending then
    rc <- handshake_loop fuel;;
    if rc <=? 0 then
      rc' <- handleSslState rc;;
      if rc' <=? 0 then
        ret (if rc' =? 0 then 0 else 1)
      else
        modify (set_doHandshake false);;
        (* Handshake complete. *)
        ret 1
    else
      modify (set_doHandshake false);;
      ret 1
  else
    ret 1.

(** [int readData(char* buf, int len)] and
    [int writeData(const char* buf, const int len)] *)

Definition readData (len : Z) : M Z :=
  assertCorrectThread;;
  rc <- engine_call (SSL_read len) (Call_SSL_read len);;
  handleSslState rc.

Definition writeData (len : Z) : M Z :=
  assertCorrectThread;;
  (* Never write 0 bytes. *)
  assert (len >? 0);;
  rc <- engine_call (SSL_write len) (Call_SSL_write len);;
  handleSslState rc.

(** Running a default implementation of the base class: its virtual calls
    land in the two overrides above. *)

Fixpoint run_base {R : Type} (c : BaseCode R) : M R :=
  match c with
  | Finish r => ret r
  | VirtualReadData len k =>
      rc <- readData len;;
      e <- get (fun s => errno (_ssl s));;
      run_base (k rc e)
  | VirtualWriteData len k =>
      rc <- writeData len;;
      e <- get (fun s => errno (_ssl s));;
      run_base (k rc e)
  end.

(** The calls [StreamSocket::readIncomingData()] and
    [StreamSocket::writeOutgoingData()] on this object. *)

Definition default_readIncomingData : M bool :=
  code <- get (fun s => StreamSocket_readIncomingData (base s));;
  r <- run_base code;;
  modify (set_base (snd r));;
  ret (fst r).

Definition default_writeOutgoingData : M unit :=
  code <- get (fun s => StreamSocket_writeOutgoingData (base s));;
  b <- run_base code;;
  modify (set_base b).

(** [bool readIncomingData()] *)

Definition readIncomingData (fuel : nat) : M bool :=
  assertCorrectThread;;
  rc <- doHandshake fuel;;
  if rc <=? 0 then
    ret (negb (rc =? 0))
  else
    (* Default implementation. *)
    default_readIncomingData.

(** [void writeOutgoingData()] *)

Definition writeOutgoingData (fuel : nat) : M unit :=
  assertCorrectThread;;
  rc <- doHandshake fuel;;
  if rc <=? 0 then
    ret tt
  else
    (* Default implementation. *)
    default_writeOutgoingData.

(** [int getPollEvents()] *)

Definition getPollEvents : M Z :=
  wants <- get _sslWantsTo;;
  if SslWantsTo.eqb wants SslWantsTo.Read then
    (* Must read next before attempting to write. *)
    ret POLLIN
  else if SslWantsTo.eqb wants SslWantsTo.Write then
    (* Must write next before attempting to read. *)
    ret POLLOUT
  else
    (* Do the default. *)
    get (fun s => StreamSocket_getPollEvents (base s)).

(** [void shutdown()] *)

Definition shutdown : M unit :=
  rc <- engine_call SSL_shutdown Call_SSL_shutdown;;
  if rc =? 0 then
    (* Complete the bidirectional shutdown. *)
    engine_call SSL_shutdown Call_SSL_shutdown;;
    ret tt
  else
    ret tt.

(** The member functions a caller or the reactor can run on the object,
    and the two private ones. *)

Inductive operation : Set :=
| Op_shutdown
| Op_readIncomingData
| Op_writeOutgoingData
| Op_readData (len : Z)
| Op_writeData (len : Z)
| Op_getPollEvents
| Op_doHandshake
| Op_handleSslState (rc : Z).

Definition void {A} (m : M A) : M unit := m;; ret tt.

Definition run (fuel : nat) (op : operation) : M unit :=
  match op with
  | Op_shutdown => shutdown
  | Op_readIncomingData => void (readIncomingData fuel)
  | Op_writeOutgoingData => writeOutgoingData fuel
  | Op_readData len => void (readData len)
  | Op_writeData len => void (writeData len)
  | Op_getPollEvents => void getPollEvents
  | Op_doHandshake => void (doHandshake fuel)
  | Op_handleSslState rc => void (handleSslState rc)
  end.

(** The object after a sequence of operations, whatever their outcomes. *)

Fixpoint run_all (fuel : nat) (ops : list operation) (s : Sock) : Sock :=
  match ops with
  | [] => s
  | op :: ops' => run_all fuel ops' (snd (run fuel op s))
  end.

(** *** Vocabulary of the statements *)

(** What an operation added to the log: it only ever appends. *)

Definition appended (Q : EngineCall -> bool) (s s' : Sock) : Prop :=
  exists l, calls s' = calls s ++ l /\ forallb Q l = true.

(** A field an operation left as it was. *)

Definition same {X} (f : Sock -> X) (s s' : Sock) : Prop := f s' = f s.

(** [stays R m]: whatever the outcome of [m], the object it leaves is
    related by [R] to the one it started from. *)

Definition stays (R : Sock -> Sock -> Prop) {A} (m : M A) : Prop :=
  forall s, R s (snd (m s)).

(** Handshake-done kept, and no handshake step taken. *)

Definition past_handshake (s s' : Sock) : Prop :=
  same _doHandshake s s' /\ appended (fun c => negb (is_handshake c)) s s'.

Definition no_empty_write (c : EngineCall) : bool :=
  match c with Call_SSL_write len _ => len >? 0 | _ => true end.

(** The operation took its last handshake step with a positive result. *)

Definition completed_handshake (s s' : Sock) : Prop :=
  exists l1 rc l2,
    calls s' = calls s ++ l1 ++ Call_SSL_do_handshake rc :: l2
    /\ 0 < rc /\ forallb (fun c => negb (is_handshake c)) l2 = true.

(** The engine calls made between two states of the object, and how many
    of them were close-notify attempts. *)

Definition since (s s' : Sock) : list EngineCall :=
  skipn (List.length (calls s)) (calls s').

Definition attempts (s s' : Sock) : nat :=
  List.length (filter is_shutdown (since s s')).

(** The object right after [SSL_get_error(_ssl, rc)] was asked. *)

Definition classified (rc : Z) (s : Sock) : Sock :=
  engine_step (_ssl s) (Call_SSL_get_error rc (SSL_get_error rc (_ssl s))) s.

(** The signals [handleSslState] has a [case] for. *)

Definition has_case (sslError : Z) : bool :=
  (sslError =? SSL_ERROR_ZERO_RETURN) || (sslError =? SSL_ERROR_WANT_READ)
  || (sslError =? SSL_ERROR_WANT_WRITE) || (sslError =? SSL_ERROR_WANT_CONNECT)
  || (sslError =? SSL_ERROR_WANT_ACCEPT) || (sslError =? SSL_ERROR_WANT_X509_LOOKUP)
  || (sslError =? SSL_ERROR_SYSCALL).

(** The signals that end in the [default:] block: those without a [case],
    and [SSL_ERROR_SYSCALL] when [errno] is 0. *)

Definition reaches_default (sslError e : Z) : bool :=
  negb (has_case sslError) || ((sslError =? SSL_ERROR_SYSCALL) && (e =? 0)).

(** The signals with an outcome of their own, [SSL_ERROR_SYSCALL] apart. *)

Definition named_signal (sslError : Z) : bool :=
  (sslError =? SSL_ERROR_ZERO_RETURN) || (sslError =? SSL_ERROR_WANT_READ)
  || (sslError =? SSL_ERROR_WANT_WRITE) || (sslError =? SSL_ERROR_WANT_CONNECT)
  || (sslError =? SSL_ERROR_WANT_ACCEPT) || (sslError =? SSL_ERROR_WANT_X509_LOOKUP).

(** Want-state follows the signal of the operation just classified, in
    both directions. *)

Definition tracks_last_signal (rc : Z) (s s' : Sock) : Prop :=
  (_sslWantsTo s' = SslWantsTo.Read <-> SSL_get_error rc (_ssl s) = SSL_ERROR_WANT_READ)
  /\ (_sslWantsTo s' = SslWantsTo.Write <-> SSL_get_error rc (_ssl s) = SSL_ERROR_WANT_WRITE).

(** The interest [getPollEvents] reports for a want-state. *)

Definition interest (wants : SslWantsTo.t) (default : Z) : Z :=
  match wants with
  | SslWantsTo.Read => POLLIN
  | SslWantsTo.Write => POLLOUT
  | SslWantsTo.Neither => default
  end.

(** The signals that pass [rc] through without naming a direction. *)

Definition unexpected_want (sslError : Z) : bool :=
  (sslError =? SSL_ERROR_WANT_CONNECT) || (sslError =? SSL_ERROR_WANT_ACCEPT)
  || (sslError =? SSL_ERROR_WANT_X509_LOOKUP).

End Members.

(** ** A scripted engine and a buffering base, for concrete runs *)

(** One answer of the engine: the result of the call, the [errno] it
    leaves, and what [SSL_get_error] reports for it. *)

Record Reply : Set := mkReply {
  reply_rc : Z;
  reply_errno : Z;
  reply_error : Z
}.

Record Scripted : Set := mkScripted {
  now_errno : Z;
  now_error : Z;
  handshakes : list Reply;
  reads : list Reply;
  writes : list Reply;
  shutdowns : list Reply;
  queue : list Z
}.

(** Each kind of call takes the next answer of its own list; an
    exhausted list answers like a peer that has closed. *)

Definition answer (pending : list Reply) (rest : list Reply -> Scripted -> Scripted)
    (e : Scripted) : Z * Scripted :=
  match pending with
  | [] =>
      (0, mkScripted (now_errno e) SSL_ERROR_ZERO_RETURN (handshakes e) (reads e)
            (writes e) (shutdowns e) (queue e))
  | r :: pending' =>
      (reply_rc r,
       rest pending'
         (mkScripted (reply_errno r) (reply_error r) (handshakes e) (reads e)
            (writes e) (shutdowns e) (queue e)))
  end.

Definition with_handshakes (l : list Reply) (e : Scripted) : Scripted :=
  mkScripted (now_errno e) (now_error e) l (reads e) (writes e) (shutdowns e) (queue e).

Definition with_reads (l : list Reply) (e : Scripted) : Scripted :=
  mkScripted (now_errno e) (now_error e) (handshakes e) l (writes e) (shutdowns e) (queue e).

Definition with_writes (l : list Reply) (e : Scripted) : Scripted :=
  mkScripted (now_errno e) (now_error e) (handshakes e) (reads e) l (shutdowns e) (queue e).

Definition with_shutdowns (l : list Reply) (e : Scripted) : Scripted :=
  mkScripted (now_errno e) (now_error e) (handshakes e) (reads e) (writes e) l (queue e).

Definition pop_queue (e : Scripted) : Z * Scripted :=
  match queue e with
  | [] => (0, e)
  | err :: q =>
      (err, mkScripted (now_errno e) (now_error e) (handshakes e) (reads e)
              (writes e) (shutdowns e) q)
  end.

Definition describe (err : Z) : string :=
  ("error:" ++ to_string err ++ ":lib(0):func(0):reason(0)")%string.

#[export] Instance Scripted_Engine : Engine Scripted := {|
  errno := now_errno;
  SSL_do_handshake := fun e => answer (handshakes e) with_handshakes e;
  SSL_read := fun _ e => answer (reads e) with_reads e;
  SSL_write := fun _ e => answer (writes e) with_writes e;
  SSL_shutdown := fun e => answer (shutdowns e) with_shutdowns e;
  SSL_get_error := fun _ e => now_error e;
  ERR_get_error := pop_queue;
  ERR_error_string := describe
|}.

(** Modelled from the spec: the base duplex transport of Socket.hpp, "a
    raw non-blocking byte-stream socket providing buffered read/write
    against a file descriptor and a default readiness-interest
    computation from buffered-data state".  Only byte counts are kept.
    The default read asks the virtual read for up to one block and
    reports end of stream on 0; the default write offers the buffered
    outbound bytes to the virtual write; the default interest is read,
    plus write while outbound bytes are buffered. *)

Record Buffered : Set := mkBuffered {
  onOwnerThread : bool;
  inBuffer : Z;
  outBuffer : Z
}.

Definition block : Z := 16384.

(** Modelled from the spec: the default read, "requests up to maxLen
    plaintext bytes" through the virtual read and reports whether the
    stream is still open. *)

Definition Buffered_read (b : Buffered) : BaseCode (bool * Buffered) :=
  VirtualReadData block (fun len _ =>
    Finish (negb (len =? 0),
            if len >? 0 then mkBuffered (onOwnerThread b) (inBuffer b + len) (outBuffer b)
            else b)).

(** Modelled from the spec: the default write, which offers the buffered
    outbound bytes to the virtual write and keeps what was not taken. *)

Definition Buffered_write (b : Buffered) : BaseCode Buffered :=
  if outBuffer b >? 0 then
    VirtualWriteData (outBuffer b) (fun len _ =>
      Finish (if len >? 0 then mkBuffered (onOwnerThread b) (inBuffer b) (outBuffer b - len)
              else b))
  else Finish b.

(** Modelled from the spec: the default interest, read, and write as well
    while the transport "has buffered outbound bytes". *)

Definition Buffered_interest (b : Buffered) : Z :=
  if outBuffer b >? 0 then Z.lor POLLIN POLLOUT else POLLIN.

#[export] Instance Buffered_Transport : Transport Buffered := {|
  isCorrectThread := onOwnerThread;
  StreamSocket_getPollEvents := Buffered_interest;
  StreamSocket_readIncomingData := Buffered_read;
  StreamSocket_writeOutgoingData := Buffered_write
|}.

(** An engine with nothing scripted, and sockets built on it. *)

Definition quiet : Scripted := mkScripted 0 SSL_ERROR_NONE [] [] [] [] [].

Definition idle : Buffered := mkBuffered true 0 0.

Definition want_read : Reply := mkReply (-1) EAGAIN SSL_ERROR_WANT_READ.

Definition success (n : Z) : Reply := mkReply n 0 SSL_ERROR_NONE.

(** A freshly accepted connection: the first handshake step and the first
    read need more input from the peer, the second handshake step
    completes. *)

Definition awaiting_client_hello : @SslStreamSocket Scripted Buffered :=
  constructed idle
    (with_reads [want_read] (with_handshakes [want_read; success 1] quiet)).

(** The same connection after the reactor's first read callback. *)

Definition after_first_read : @SslStreamSocket Scripted Buffered :=
  snd (readIncomingData 1 awaiting_client_hello).

(** A connection whose last handshake step wanted input, with outbound
    bytes already buffered, and the next step about to complete. *)

Definition last_flight : @SslStreamSocket Scripted Buffered :=
  mkSocket (mkBuffered true 0 100)
    (mkScripted EAGAIN SSL_ERROR_WANT_READ [success 1] [] [] [] [])
    SslWantsTo.Read true [Call_SSL_do_handshake (-1); Call_SSL_get_error (-1) SSL_ERROR_WANT_READ].

(** The engine has just answered a handshake step with need-input. *)

Definition step_wants_input : @SslStreamSocket Scripted Buffered :=
  mkSocket idle (mkScripted EAGAIN SSL_ERROR_WANT_READ [] [] [] [] [])
    SslWantsTo.Neither true [Call_SSL_do_handshake (-1)].

Definition step_wants_output : @SslStreamSocket Scripted Buffered :=
  mkSocket idle (mkScripted EAGAIN SSL_ERROR_WANT_WRITE [] [] [] [] [])
    SslWantsTo.Neither true [Call_SSL_do_handshake (-1)].

(** The peer's close-notify arrives while the last read still waits for
    input; a connection reset while it waits; a protocol fault queued by
    the engine. *)

Definition closed_while_waiting : @SslStreamSocket Scripted Buffered :=
  mkSocket idle (mkScripted 0 SSL_ERROR_ZERO_RETURN [] [] [] [] [])
    SslWantsTo.Read false [Call_SSL_read block (-1); Call_SSL_get_error (-1) SSL_ERROR_WANT_READ].

Definition reset_while_waiting : @SslStreamSocket Scripted Buffered :=
  mkSocket idle (mkScripted ECONNRESET SSL_ERROR_SYSCALL [] [] [] [] [])
    SslWantsTo.Read false [Call_SSL_read block (-1); Call_SSL_get_error (-1) SSL_ERROR_WANT_READ].

Definition bad_record : Z := 336130315.

Definition faulted : @SslStreamSocket Scripted Buffered :=
  mkSocket idle (mkScripted 0 SSL_ERROR_SSL [] [] [] [] [bad_record])
    SslWantsTo.Neither false [].

Definition vanished : @SslStreamSocket Scripted Buffered :=
  mkSocket idle (mkScripted 0 SSL_ERROR_SYSCALL [] [] [] [] [])
    SslWantsTo.Neither false [].

(** Established, with outbound bytes buffered, and the engine ready to
    take or deliver a record. *)

Definition established : @SslStreamSocket Scripted Buffered :=
  mkSocket (mkBuffered true 0 100)
    (with_writes [mkReply 100 0 SSL_ERROR_NONE] (with_reads [mkReply 42 0 SSL_ERROR_NONE] quiet))
    SslWantsTo.Write false [].

(** ** The rest of the class: the handshake loop step by step, the
    constructor and the destructor *)

Section Lifetime.

Context {E B : Type} `{Engine E} `{Transport B}.

Abbreviation Sock := (@SslStreamSocket E B).

(** One [SSL_do_handshake] call on the object, and whether the loop of
    [doHandshake] goes round again after it. *)

Definition handshake_step (s : Sock) : Sock :=
  engine_step (snd (SSL_do_handshake (_ssl s)))
    (Call_SSL_do_handshake (fst (SSL_do_handshake (_ssl s)))) s.

Definition interrupted (s : Sock) : bool :=
  (fst (SSL_do_handshake (_ssl s)) <? 0)
  && (errno (snd (SSL_do_handshake (_ssl s))) =? EINTR).

Fixpoint after_steps (n : nat) (s : Sock) : Sock :=
  match n with
  | O => s
  | S n' => after_steps n' (handshake_step s)
  end.

Fixpoint interrupted_for (n : nat) (s : Sock) : bool :=
  match n with
  | O => true
  | S n' => interrupted s && interrupted_for n' (handshake_step s)
  end.

(** What [doHandshake] does with the result the loop ended on. *)

Definition handshake_outcome (rc : Z) : @M E B Z :=
  if rc <=? 0 then
    rc' <- handleSslState rc;;
    if rc' <=? 0 then
      ret (if rc' =? 0 then 0 else 1)
    else
      modify (set_doHandshake false);;
      ret 1
  else
    modify (set_doHandshake false);;
    ret 1.

(** The member functions that start with [assert(isCorrectThread())]. *)

Definition checks_thread (op : operation) : bool :=
  match op with
  | Op_shutdown | Op_getPollEvents => false
  | _ => true
  end.

Definition any_call (c : EngineCall) : bool := true.

Definition classifier_call (c : EngineCall) : bool :=
  match c with
  | Call_SSL_get_error _ _ | Call_ERR_get_error _ => true
  | _ => false
  end.

End Lifetime.

Definition BIO_NOCLOSE : Z := 0.

(** The library behind the constructor and the destructor.  [L] is the
    state of the allocator; a [BIO*] is a number, [None] is [nullptr].
    [SslContext_newSsl] is [SslContext::newSsl()] of Ssl.hpp. *)

Class Library (E L : Type) : Type := {
  BIO_new : L -> option Z * L;
  BIO_set_fd : Z -> Z -> Z -> L -> L;
  BIO_free : Z -> L -> L;
  SslContext_newSsl : L -> option E * L;
  SSL_set_bio : Z -> Z -> E -> E;
  SSL_set_accept_state : E -> E;
  SSL_free : E -> L -> L
}.

Inductive SetupCall : Set :=
| Call_BIO_new (bio : option Z)
| Call_BIO_set_fd (bio fd flag : Z)
| Call_newSsl (ok : bool)
| Call_BIO_free (bio : Z)
| Call_SSL_set_bio (rbio wbio : Z)
| Call_SSL_set_accept_state
| Call_SSL_free.

(** BIOs allocated and not yet freed or handed to an [SSL]. *)

Fixpoint bios_held (log : list SetupCall) : Z :=
  match log with
  | [] => 0
  | Call_BIO_new (Some _) :: log' => bios_held log' + 1
  | Call_BIO_free _ :: log' => bios_held log' - 1
  | Call_SSL_set_bio _ _ :: log' => bios_held log' - 1
  | _ :: log' => bios_held log'
  end.

Section Construction.

Context {E B L : Type} `{Engine E} `{Transport B} `{Library E L}.

(** [SslStreamSocket(const int fd, ...)], given the [StreamSocket]
    subobject [b] its base constructor has built. *)

Definition SslStreamSocket_ctor (fd : Z) (b : B) (l : L)
    : outcome (@SslStreamSocket E B) * L * list SetupCall :=
  let (bio, l1) := BIO_new l in
  match bio with
  | None => (Throws "Failed to create SSL BIO."%string, l1, [Call_BIO_new None])
  | Some bio =>
      let l2 := BIO_set_fd bio fd BIO_NOCLOSE l1 in
      let (ssl, l3) := SslContext_newSsl l2 in
      match ssl with
      | None =>
          (Throws "Failed to create SSL."%string, BIO_free bio l3,
           [Call_BIO_new (Some bio); Call_BIO_set_fd bio fd BIO_NOCLOSE;
            Call_newSsl false; Call_BIO_free bio])
      | Some e =>
          (* We are a server-side socket. *)
          (Returns (constructed b (SSL_set_accept_state (SSL_set_bio bio bio e))), l3,
           [Call_BIO_new (Some bio); Call_BIO_set_fd bio fd BIO_NOCLOSE;
            Call_newSsl true; Call_SSL_set_bio bio bio; Call_SSL_set_accept_state])
      end
  end.

(** [~SslStreamSocket()]: [shutdown(); SSL_free(_ssl);] *)

Definition SslStreamSocket_dtor (s : @SslStreamSocket E B) (l : L)
    : outcome unit * @SslStreamSocket E B * L * list SetupCall :=
  match shutdown s with
  | (Returns _, s') => (Returns tt, s', SSL_free (_ssl s') l, [Call_SSL_free])
  | (o, s') => (o, s', l, [])
  end.

End Construction.

(** A pool that serves a bounded number of BIOs and engine handles, for
    concrete constructions. *)

Record Pool : Set := mkPool {
  bios_left : nat;
  ssls_left : nat;
  next_bio : Z;
  live_bios : list Z;
  ssl_freed : nat
}.

Definition Pool_BIO_new (p : Pool) : option Z * Pool :=
  match bios_left p with
  | O => (None, p)
  | S n =>
      (Some (next_bio p),
       mkPool n (ssls_left p) (next_bio p + 1) (next_bio p :: live_bios p) (ssl_freed p))
  end.

Definition Pool_BIO_free (bio : Z) (p : Pool) : Pool :=
  mkPool (bios_left p) (ssls_left p) (next_bio p)
    (filter (fun b => negb (b =? bio)) (live_bios p)) (ssl_freed p).

Definition Pool_newSsl (p : Pool) : option Scripted * Pool :=
  match ssls_left p with
  | O => (None, p)
  | S n => (Some quiet, mkPool (bios_left p) n (next_bio p) (live_bios p) (ssl_freed p))
  end.

Definition Pool_SSL_free (e : Scripted) (p : Pool) : Pool :=
  mkPool (bios_left p) (ssls_left p) (next_bio p) (live_bios p) (S (ssl_freed p)).

#[export] Instance Pool_Library : Library Scripted Pool := {|
  BIO_new := Pool_BIO_new;
  BIO_set_fd := fun _ _ _ p => p;
  BIO_free := Pool_BIO_free;
  SslContext_newSsl := Pool_newSsl;
  SSL_set_bio := fun _ _ e => e;
  SSL_set_accept_state := fun e => e;
  SSL_free := Pool_SSL_free
|}.

(** More connections: a handshake step interrupted twice by a signal
    before it completes; a peer that closes during the handshake; a
    handshake that fails with a queued diagnostic; a suspended handshake
    with outbound bytes buffered; a call from another thread. *)

Definition signalled : Reply := mkReply (-1) EINTR SSL_ERROR_SYSCALL.

Definition interrupted_twice : @SslStreamSocket Scripted Buffered :=
  constructed idle (with_handshakes [signalled; signalled; success 1] quiet).

Definition closing_handshake : @SslStreamSocket Scripted Buffered :=
  constructed idle (with_handshakes [mkReply 0 0 SSL_ERROR_ZERO_RETURN] quiet).

Definition flushing_handshake : @SslStreamSocket Scripted Buffered :=
  constructed (mkBuffered true 0 100)
    (with_writes [mkReply (-1) EAGAIN SSL_ERROR_WANT_WRITE]
       (with_handshakes [mkReply (-1) EAGAIN SSL_ERROR_WANT_WRITE] quiet)).

(** The same, each after one step interrupted by a signal; and a peer
    that never answers a close-notify. *)

Definition closing_after_signal : @SslStreamSocket Scripted Buffered :=
  constructed idle
    (with_handshakes [signalled; mkReply 0 0 SSL_ERROR_ZERO_RETURN] quiet).

Definition failing_after_signal : @SslStreamSocket Scripted Buffered :=
  constructed idle
    (mkScripted 0 SSL_ERROR_NONE [signalled; mkReply (-1) 0 SSL_ERROR_SSL] [] [] []
       [bad_record]).

Definition flushing_after_signal : @SslStreamSocket Scripted Buffered :=
  constructed (mkBuffered true 0 100)
    (with_writes [mkReply (-1) EAGAIN SSL_ERROR_WANT_WRITE]
       (with_handshakes [signalled; mkReply (-1) EAGAIN SSL_ERROR_WANT_WRITE] quiet)).

Definition last_flight_after_signals : @SslStreamSocket Scripted Buffered :=
  mkSocket (mkBuffered true 0 100)
    (mkScripted EAGAIN SSL_ERROR_WANT_READ [signalled; signalled; success 1] [] [] [] [])
    SslWantsTo.Read true [Call_SSL_do_handshake (-1); Call_SSL_get_error (-1) SSL_ERROR_WANT_READ].

Definition incomplete : Reply := mkReply 0 0 SSL_ERROR_SYSCALL.

Definition unresponsive_peer : @SslStreamSocket Scripted Buffered :=
  mkSocket idle (with_shutdowns [incomplete; incomplete; incomplete; incomplete] quiet)
    SslWantsTo.Neither false [].

Definition closing_read : @SslStreamSocket Scripted Buffered :=
  mkSocket idle (with_reads [mkReply 0 0 SSL_ERROR_ZERO_RETURN] quiet)
    SslWantsTo.Read false [].

Definition off_thread : @SslStreamSocket Scripted Buffered :=
  mkSocket (mkBuffered false 0 100) (with_handshakes [success 1] quiet)
    SslWantsTo.Neither true [].

(** * Properties *)

(** ** Frame rules of the monad *)

Section Frame.

Context {E B : Type} `{Engine E} `{Transport B}.

Abbreviation Sock := (@SslStreamSocket E B).

Variable R : Sock -> Sock -> Prop.
Hypothesis R_refl : forall s, R s s.
Hypothesis R_trans : forall s1 s2 s3, R s1 s2 -> R s2 s3 -> R s1 s3.

Lemma stays_ret {A} (a : A) : stays R (ret a).
Proof. intros s. apply R_refl. Qed.

Lemma stays_throw {A} what : stays R (@throw E B A what).
Proof. intros s. apply R_refl. Qed.

Lemma stays_get {A} (f : Sock -> A) : stays R (get f).
Proof. intros s. apply R_refl. Qed.

Lemma stays_assert b : stays R (assert b).
Proof. intros s. unfold assert. destruct b; apply R_refl. Qed.

Lemma stays_bind {A C} (m : M A) (k : A -> M C) :
  stays R m -> (forall a, stays R (k a)) -> stays R (bind m k).
Proof.
  intros Hm Hk s. unfold bind. specialize (Hm s).
  destruct (m s) as [[a | what | | ] s1]; simpl in *; try exact Hm.
  eapply R_trans; [exact Hm | apply Hk].
Qed.

Lemma stays_assert_then {C} b (k : M C) :
  (b = true -> stays R k) -> stays R (bind (assert b) (fun _ => k)).
Proof.
  intros Hk s. unfold bind, assert. destruct b; simpl.
  - apply Hk. reflexivity.
  - apply R_refl.
Qed.

Lemma stays_modify (f : Sock -> Sock) :
  (forall s, R s (f s)) -> stays R (modify f).
Proof. intros Hf s. apply Hf. Qed.

Lemma stays_engine_call (f : E -> Z * E) (c : Z -> EngineCall) :
  (forall s e rc, R s (engine_step e (c rc) s)) -> stays R (engine_call f c).
Proof.
  intros Hc s. unfold engine_call. destruct (f (_ssl s)) as [rc e]. apply Hc.
Qed.

Lemma stays_engine_query (f : E -> Z) (c : Z -> EngineCall) :
  (forall s e rc, R s (engine_step e (c rc) s)) -> stays R (engine_query f c).
Proof. intros Hc s. apply Hc. Qed.

End Frame.

Lemma appended_refl {E B} Q (s : @SslStreamSocket E B) : appended Q s s.
Proof. exists []. rewrite app_nil_r. split; reflexivity. Qed.

Lemma appended_trans {E B} Q (s1 s2 s3 : @SslStreamSocket E B) :
  appended Q s1 s2 -> appended Q s2 s3 -> appended Q s1 s3.
Proof.
  intros [l1 [E1 Q1]] [l2 [E2 Q2]]. exists (l1 ++ l2). split.
  - rewrite E2, E1, app_assoc. reflexivity.
  - rewrite forallb_app, Q1, Q2. reflexivity.
Qed.

Lemma appended_call {E B} (Q : EngineCall -> bool) e c (s : @SslStreamSocket E B) :
  Q c = true -> appended Q s (engine_step e c s).
Proof. intros HQ. exists [c]. simpl. rewrite HQ. split; reflexivity. Qed.

Lemma past_handshake_refl {E B} (s : @SslStreamSocket E B) : past_handshake s s.
Proof. split; [reflexivity | apply appended_refl]. Qed.

Lemma past_handshake_trans {E B} (s1 s2 s3 : @SslStreamSocket E B) :
  past_handshake s1 s2 -> past_handshake s2 s3 -> past_handshake s1 s3.
Proof.
  intros [D1 A1] [D2 A2]. split.
  - unfold same in *. congruence.
  - eapply appended_trans; eassumption.
Qed.

(** Taking a member function apart, one statement at a time. *)

Ltac frame_step :=
  match goal with
  | |- stays _ (bind (assert _) _) => apply stays_assert_then; [assumption | intros ?]
  | |- stays _ (bind _ _) => apply stays_bind; [assumption | | intros ?]
  | |- stays _ (ret _) => apply stays_ret; assumption
  | |- stays _ (throw _) => apply stays_throw; assumption
  | |- stays _ (get _) => apply stays_get; assumption
  | |- stays _ (assert _) => apply stays_assert; assumption
  | |- stays _ (modify _) => apply stays_modify; intros ?
  | |- stays _ (engine_call _ _) => apply stays_engine_call; intros ? ? ?
  | |- stays _ (engine_query _ _) => apply stays_engine_query; intros ? ? ?
  | |- stays _ (if ?b then _ else _) => destruct b eqn:?
  end.

Ltac frame := repeat frame_step.

#[local] Arguments Z.eqb : simpl never.
#[local] Arguments Z.gtb : simpl never.
#[local] Arguments Z.leb : simpl never.
#[local] Arguments Z.ltb : simpl never.

(** Comparisons between constants of the headers are decided on the spot. *)

Ltac eval_consts :=
  repeat match goal with
    | |- context [?a =? ?b] =>
        let v := eval vm_compute in (a =? b) in
        match v with true => idtac | false => idtac end;
        change (a =? b) with v
    end;
  simpl.

Ltac step_monad :=
  unfold assertCorrectThread, bind, ret, get, modify, assert, throw,
    engine_call, engine_query; simpl.

(** ** What every member function leaves alone

    [R] is any relation between the object before and after that survives
    the writes to [_sslWantsTo] and to the base subobject and the engine
    calls allowed by [Q]. *)

Section Framed.

Context {E B : Type} `{Engine E} `{Transport B}.

Variable Q : EngineCall -> bool.
Variable R : @SslStreamSocket E B -> @SslStreamSocket E B -> Prop.

Hypothesis R_refl : forall s, R s s.
Hypothesis R_trans : forall s1 s2 s3, R s1 s2 -> R s2 s3 -> R s1 s3.
Hypothesis R_wants : forall v s, R s (set_sslWantsTo v s).
Hypothesis R_base : forall b s, R s (set_base b s).
Hypothesis R_call : forall e c s, Q c = true -> R s (engine_step e c s).
Hypothesis Q_get_error : forall rc err, Q (Call_SSL_get_error rc err) = true.
Hypothesis Q_queue : forall err, Q (Call_ERR_get_error err) = true.
Hypothesis Q_read : forall len rc, Q (Call_SSL_read len rc) = true.
Hypothesis Q_write : forall len rc, (len >? 0) = true -> Q (Call_SSL_write len rc) = true.
Hypothesis Q_shutdown : forall rc, Q (Call_SSL_shutdown rc) = true.

Lemma stays_handleSslState rc : stays R (handleSslState rc).
Proof. unfold handleSslState, classify_error, assertCorrectThread. frame; auto. Qed.

Lemma stays_readData len : stays R (readData len).
Proof.
  unfold readData, assertCorrectThread. frame; auto using stays_handleSslState.
Qed.

Lemma stays_writeData len : stays R (writeData len).
Proof.
  unfold writeData, assertCorrectThread. frame; auto using stays_handleSslState.
Qed.

Lemma stays_run_base {X} (c : BaseCode X) : stays R (run_base c).
Proof.
  induction c as [r | len k IH | len k IH]; simpl.
  - frame.
  - frame; auto using stays_readData.
  - frame; auto using stays_writeData.
Qed.

Lemma stays_default_readIncomingData : stays R default_readIncomingData.
Proof. unfold default_readIncomingData. frame; auto using stays_run_base. Qed.

Lemma stays_default_writeOutgoingData : stays R default_writeOutgoingData.
Proof. unfold default_writeOutgoingData. frame; auto using stays_run_base. Qed.

Lemma stays_getPollEvents : stays R getPollEvents.
Proof. unfold getPollEvents. frame. Qed.

Lemma stays_shutdown : stays R shutdown.
Proof. unfold shutdown. frame; auto. Qed.

(** With the handshake step and the write to [_doHandshake] allowed as
    well, the rest of the class follows. *)

Hypothesis R_done : forall v s, R s (set_doHandshake v s).
Hypothesis Q_handshake : forall rc, Q (Call_SSL_do_handshake rc) = true.

Lemma stays_handshake_loop fuel : stays R (handshake_loop fuel).
Proof.
  induction fuel as [| fuel IH]; simpl.
  - intros s. apply R_refl.
  - frame; auto.
Qed.

Lemma stays_doHandshake fuel : stays R (doHandshake fuel).
Proof.
  unfold doHandshake, assertCorrectThread.
  frame; auto using stays_handshake_loop, stays_handleSslState.
Qed.

Lemma stays_readIncomingData fuel : stays R (readIncomingData fuel).
Proof.
  unfold readIncomingData, assertCorrectThread.
  frame; auto using stays_doHandshake, stays_default_readIncomingData.
Qed.

Lemma stays_writeOutgoingData fuel : stays R (writeOutgoingData fuel).
Proof.
  unfold writeOutgoingData, assertCorrectThread.
  frame; auto using stays_doHandshake, stays_default_writeOutgoingData.
Qed.

Lemma stays_run fuel op : stays R (run fuel op).
Proof.
  destruct op; simpl; unfold void; frame;
    auto using stays_shutdown, stays_readIncomingData, stays_writeOutgoingData,
      stays_readData, stays_writeData, stays_getPollEvents, stays_doHandshake,
      stays_handleSslState.
Qed.

End Framed.

(** ** The status classifier, case by case *)

Section Classifier.

Context {E B : Type} `{Engine E} `{Transport B}.

Implicit Types s : @SslStreamSocket E B.

Lemma handleSslState_wrong_thread s rc :
  isCorrectThread (base s) = false -> handleSslState rc s = (Aborts, s).
Proof. intros Ht. unfold handleSslState. step_monad. rewrite Ht. reflexivity. Qed.

Lemma handleSslState_positive s rc :
  isCorrectThread (base s) = true -> 0 < rc ->
  handleSslState rc s = (Returns rc, set_sslWantsTo SslWantsTo.Neither s).
Proof.
  intros Ht Hrc. unfold handleSslState. step_monad. rewrite Ht.
  apply Z.gtb_lt in Hrc. rewrite Hrc. reflexivity.
Qed.

Lemma handleSslState_nonpositive s rc :
  isCorrectThread (base s) = true -> rc <= 0 ->
  handleSslState rc s = classify_error rc s.
Proof.
  intros Ht Hrc. unfold handleSslState. step_monad. rewrite Ht.
  destruct (rc >? 0) eqn:Hgt; [apply Z.gtb_lt in Hgt; lia | reflexivity].
Qed.

Lemma classify_zero_return s rc :
  SSL_get_error rc (_ssl s) = SSL_ERROR_ZERO_RETURN ->
  classify_error rc s = (Returns 0, classified rc s).
Proof. intros He. unfold classify_error, classified. step_monad. rewrite He. reflexivity. Qed.

Lemma classify_want_read s rc :
  SSL_get_error rc (_ssl s) = SSL_ERROR_WANT_READ ->
  classify_error rc s = (Returns rc, set_sslWantsTo SslWantsTo.Read (classified rc s)).
Proof. intros He. unfold classify_error, classified. step_monad. rewrite He. reflexivity. Qed.

Lemma classify_want_write s rc :
  SSL_get_error rc (_ssl s) = SSL_ERROR_WANT_WRITE ->
  classify_error rc s = (Returns rc, set_sslWantsTo SslWantsTo.Write (classified rc s)).
Proof. intros He. unfold classify_error, classified. step_monad. rewrite He. reflexivity. Qed.

Lemma classify_unexpected_want s rc :
  unexpected_want (SSL_get_error rc (_ssl s)) = true ->
  classify_error rc s = (Returns rc, classified rc s).
Proof.
  unfold unexpected_want. rewrite !orb_true_iff, !Z.eqb_eq. intros He.
  unfold classify_error, classified. step_monad.
  destruct He as [[-> | ->] | ->]; reflexivity.
Qed.

Lemma classify_syscall_errno s rc :
  SSL_get_error rc (_ssl s) = SSL_ERROR_SYSCALL -> errno (_ssl s) <> 0 ->
  classify_error rc s = (Returns rc, classified rc s).
Proof.
  intros He Hn. unfold classify_error, classified. step_monad.
  apply Z.eqb_neq in Hn. rewrite He. eval_consts. rewrite Hn. reflexivity.
Qed.

Lemma classify_default s rc :
  reaches_default (SSL_get_error rc (_ssl s)) (errno (_ssl s)) = true ->
  classify_error rc s =
  (let (bioError, e') := ERR_get_error (_ssl s) in
   let s' := engine_step e' (Call_ERR_get_error bioError) (classified rc s) in
   if bioError =? 0 then
     if rc =? 0 then (Returns 0, s')
     else if rc =? -1 then (Throws "SSL Socket closed unexpectedly."%string, s')
     else (Throws ("SSL BIO reported error [" ++ to_string rc ++ "].")%string, s')
   else (Throws (substring 0 511 (ERR_error_string bioError)), s')).
Proof.
  intros Hd. unfold classify_error, classified. step_monad.
  unfold reaches_default, has_case in Hd.
  apply orb_true_iff in Hd. destruct Hd as [Hd | Hd].
  - apply negb_true_iff in Hd. rewrite !orb_false_iff in Hd.
    destruct Hd as [[[[[[-> ->] ->] ->] ->] ->] ->]. simpl.
    destruct (ERR_get_error (_ssl s)) as [bioError e'].
    destruct (bioError =? 0); [destruct (rc =? 0); [|destruct (rc =? -1)] |]; reflexivity.
  - apply andb_true_iff in Hd. destruct Hd as [Hs He].
    apply Z.eqb_eq in Hs. rewrite Hs. eval_consts. rewrite He. simpl.
    destruct (ERR_get_error (_ssl s)) as [bioError e'].
    destruct (bioError =? 0); [destruct (rc =? 0); [|destruct (rc =? -1)] |]; reflexivity.
Qed.

End Classifier.

(** ** The claims about the classifier and the interest query *)

Section ClassifierClaims.

Context {E B : Type} `{Engine E} `{Transport B}.

Implicit Types s : @SslStreamSocket E B.

Lemma getPollEvents_spec s :
  getPollEvents s =
  (Returns (interest (_sslWantsTo s) (StreamSocket_getPollEvents (base s))), s).
Proof. unfold getPollEvents. step_monad. destruct (_sslWantsTo s); reflexivity. Qed.

Lemma classify_wants s rc :
  _sslWantsTo (snd (classify_error rc s)) =
  if SSL_get_error rc (_ssl s) =? SSL_ERROR_WANT_READ then SslWantsTo.Read
  else if SSL_get_error rc (_ssl s) =? SSL_ERROR_WANT_WRITE then SslWantsTo.Write
  else _sslWantsTo s.
Proof.
  unfold classify_error. step_monad.
  destruct (Z.eqb_spec (SSL_get_error rc (_ssl s)) SSL_ERROR_ZERO_RETURN) as [-> | _];
    [reflexivity |].
  destruct (SSL_get_error rc (_ssl s) =? SSL_ERROR_WANT_READ); [reflexivity |].
  destruct (SSL_get_error rc (_ssl s) =? SSL_ERROR_WANT_WRITE); [reflexivity |].
  destruct (_ || _ || _); [reflexivity |].
  destruct (_ && _); [reflexivity |].
  simpl. destruct (ERR_get_error (_ssl s)) as [bioError e'].
  destruct (bioError =? 0); [destruct (rc =? 0); [| destruct (rc =? -1)] |]; reflexivity.
Qed.

Lemma handleSslState_wants s rc :
  isCorrectThread (base s) = true ->
  _sslWantsTo (snd (handleSslState rc s)) =
  if rc >? 0 then SslWantsTo.Neither
  else if SSL_get_error rc (_ssl s) =? SSL_ERROR_WANT_READ then SslWantsTo.Read
  else if SSL_get_error rc (_ssl s) =? SSL_ERROR_WANT_WRITE then SslWantsTo.Write
  else _sslWantsTo s.
Proof.
  intros Ht. destruct (rc >? 0) eqn:Hgt.
  - apply Z.gtb_lt in Hgt. rewrite handleSslState_positive by assumption. reflexivity.
  - rewrite handleSslState_nonpositive; [apply classify_wants | assumption |].
    destruct (Z.gtb_spec rc 0); [discriminate | lia].
Qed.

Lemma readData_spec s len :
  isCorrectThread (base s) = true ->
  readData len s =
  handleSslState (fst (SSL_read len (_ssl s)))
    (engine_step (snd (SSL_read len (_ssl s)))
       (Call_SSL_read len (fst (SSL_read len (_ssl s)))) s).
Proof.
  intros Ht. unfold readData. step_monad. rewrite Ht.
  destruct (SSL_read len (_ssl s)) as [rc e]. reflexivity.
Qed.

Lemma writeData_spec s len :
  isCorrectThread (base s) = true -> 0 < len ->
  writeData len s =
  handleSslState (fst (SSL_write len (_ssl s)))
    (engine_step (snd (SSL_write len (_ssl s)))
       (Call_SSL_write len (fst (SSL_write len (_ssl s)))) s).
Proof.
  intros Ht Hlen. unfold writeData. step_monad. rewrite Ht.
  apply Z.gtb_lt in Hlen. rewrite Hlen.
  destruct (SSL_write len (_ssl s)) as [rc e]. reflexivity.
Qed.

(** C2 (as amended): a need-input signal records Read and a
    need-to-flush signal records Write, each returning the original code
    unchanged.  After a classified operation want-state is Read exactly
    when the operation signalled need-input, or signalled neither need and
    did not succeed while want-state was Read before; and the same for
    Write. *)
Theorem handleSslState_records_want s rc :
  isCorrectThread (base s) = true ->
  let err := SSL_get_error rc (_ssl s) in
  let s' := snd (handleSslState rc s) in
  (rc <= 0 -> err = SSL_ERROR_WANT_READ ->
   handleSslState rc s = (Returns rc, set_sslWantsTo SslWantsTo.Read (classified rc s)))
  /\ (rc <= 0 -> err = SSL_ERROR_WANT_WRITE ->
      handleSslState rc s = (Returns rc, set_sslWantsTo SslWantsTo.Write (classified rc s)))
  /\ (_sslWantsTo s' = SslWantsTo.Read <->
      rc <= 0 /\ (err = SSL_ERROR_WANT_READ
                  \/ (err <> SSL_ERROR_WANT_WRITE /\ _sslWantsTo s = SslWantsTo.Read)))
  /\ (_sslWantsTo s' = SslWantsTo.Write <->
      rc <= 0 /\ (err = SSL_ERROR_WANT_WRITE
                  \/ (err <> SSL_ERROR_WANT_READ /\ _sslWantsTo s = SslWantsTo.Write))).
Proof.
  intros Ht err s'. subst s'.
  assert (Hdistinct : SSL_ERROR_WANT_READ <> SSL_ERROR_WANT_WRITE) by discriminate.
  split; [| split; [| split]].
  - intros Hrc He. rewrite handleSslState_nonpositive by assumption.
    apply classify_want_read. exact He.
  - intros Hrc He. rewrite handleSslState_nonpositive by assumption.
    apply classify_want_write. exact He.
  - rewrite handleSslState_wants by assumption. fold err.
    destruct (Z.gtb_spec rc 0) as [Hpos | Hnp]; [split; [discriminate | lia] |].
    destruct (Z.eqb_spec err SSL_ERROR_WANT_READ) as [He | He].
    { split; [intros _; split; [lia | left; exact He] | reflexivity]. }
    destruct (Z.eqb_spec err SSL_ERROR_WANT_WRITE) as [He' | He'].
    { split; [discriminate | intros [_ [Hc | [Hc _]]]; contradiction]. }
    split.
    + intros Hw. split; [lia | right; split; assumption].
    + intros [_ [Hc | [_ Hc]]]; [contradiction | exact Hc].
  - rewrite handleSslState_wants by assumption. fold err.
    destruct (Z.gtb_spec rc 0) as [Hpos | Hnp]; [split; [discriminate | lia] |].
    destruct (Z.eqb_spec err SSL_ERROR_WANT_READ) as [He | He].
    { split; [discriminate | intros [_ [Hc | [Hc _]]]; congruence]. }
    destruct (Z.eqb_spec err SSL_ERROR_WANT_WRITE) as [He' | He'].
    { split; [intros _; split; [lia | left; exact He'] | reflexivity]. }
    split.
    + intros Hw. split; [lia | right; split; assumption].
    + intros [_ [Hc | [_ Hc]]]; [contradiction | exact Hc].
Qed.

(** C3: the interest is exactly read under Read and exactly write under
    Write, whatever the base transport would compute, and the base
    transport's own interest under Neither; the object is not changed. *)
Theorem getPollEvents_overrides (b : B) (e : E) (pending : bool) (log : list EngineCall) :
  getPollEvents (mkSocket b e SslWantsTo.Read pending log)
  = (Returns POLLIN, mkSocket b e SslWantsTo.Read pending log)
  /\ getPollEvents (mkSocket b e SslWantsTo.Write pending log)
     = (Returns POLLOUT, mkSocket b e SslWantsTo.Write pending log)
  /\ getPollEvents (mkSocket b e SslWantsTo.Neither pending log)
     = (Returns (StreamSocket_getPollEvents b), mkSocket b e SslWantsTo.Neither pending log)
  /\ Z.land POLLIN POLLOUT = 0.
Proof. repeat split. Qed.

(** C5: with no system error code recorded and no signal with an outcome
    of its own, the classifier asks the diagnostic queue.  Queue empty and
    result 0: returns 0.  Queue empty and result -1: throws the unexpected
    disconnect.  Queue not empty: throws the formatted diagnostic. *)
Theorem handleSslState_consults_queue s rc :
  isCorrectThread (base s) = true -> rc <= 0 ->
  errno (_ssl s) = 0 -> named_signal (SSL_get_error rc (_ssl s)) = false ->
  let bioError := fst (ERR_get_error (_ssl s)) in
  let r := handleSslState rc s in
  calls (snd r) = calls s ++ [Call_SSL_get_error rc (SSL_get_error rc (_ssl s));
                              Call_ERR_get_error bioError]
  /\ (bioError = 0 -> rc = 0 -> fst r = Returns 0)
  /\ (bioError = 0 -> rc = -1 -> fst r = Throws "SSL Socket closed unexpectedly."%string)
  /\ (bioError <> 0 -> fst r = Throws (substring 0 511 (ERR_error_string bioError))).
Proof.
  intros Ht Hrc Herrno Hsig bioError r. subst bioError r.
  rewrite handleSslState_nonpositive by assumption.
  rewrite classify_default.
  - destruct (ERR_get_error (_ssl s)) as [bioError e']. simpl.
    repeat split.
    + destruct (bioError =? 0); [destruct (rc =? 0); [| destruct (rc =? -1)] |]; simpl;
        rewrite <- app_assoc; reflexivity.
    + intros -> ->. reflexivity.
    + intros -> ->. reflexivity.
    + intros Hb. apply Z.eqb_neq in Hb. rewrite Hb. reflexivity.
  - unfold reaches_default, has_case. unfold named_signal in Hsig.
    rewrite Hsig, Herrno. simpl.
    destruct (SSL_get_error rc (_ssl s) =? SSL_ERROR_SYSCALL); reflexivity.
Qed.

(** C6: a syscall-class error with a non-zero system error code comes
    back as the original code: nothing is thrown, the diagnostic queue is
    not touched, and the engine state, [errno] included, is as it was. *)
Theorem handleSslState_syscall_passthrough s rc :
  isCorrectThread (base s) = true -> rc <= 0 ->
  SSL_get_error rc (_ssl s) = SSL_ERROR_SYSCALL -> errno (_ssl s) <> 0 ->
  handleSslState rc s = (Returns rc, classified rc s)
  /\ _ssl (classified rc s) = _ssl s
  /\ errno (_ssl (snd (handleSslState rc s))) = errno (_ssl s)
  /\ calls (snd (handleSslState rc s)) = calls s ++ [Call_SSL_get_error rc SSL_ERROR_SYSCALL].
Proof.
  intros Ht Hrc He Hn.
  rewrite handleSslState_nonpositive by assumption.
  rewrite classify_syscall_errno by assumption.
  unfold classified. rewrite He. repeat split.
Qed.

(** C10: on a syscall-class error with a non-zero system error code, and
    on the needs-connect, needs-accept and needs-lookup signals, the code
    is passed through and want-state is left as it was, so a Read or Write
    recorded earlier goes on overriding the interest. *)
Theorem handleSslState_passthrough_keeps_want s rc :
  isCorrectThread (base s) = true -> rc <= 0 ->
  (SSL_get_error rc (_ssl s) = SSL_ERROR_SYSCALL /\ errno (_ssl s) <> 0)
  \/ unexpected_want (SSL_get_error rc (_ssl s)) = true ->
  let s' := snd (handleSslState rc s) in
  fst (handleSslState rc s) = Returns rc
  /\ _sslWantsTo s' = _sslWantsTo s
  /\ getPollEvents s'
     = (Returns (interest (_sslWantsTo s) (StreamSocket_getPollEvents (base s))), s')
  /\ (_sslWantsTo s = SslWantsTo.Read -> fst (getPollEvents s') = Returns POLLIN)
  /\ (_sslWantsTo s = SslWantsTo.Write -> fst (getPollEvents s') = Returns POLLOUT).
Proof.
  intros Ht Hrc Hc s'. subst s'.
  assert (Hs : handleSslState rc s = (Returns rc, classified rc s)).
  { rewrite handleSslState_nonpositive by assumption.
    destruct Hc as [[He Hn] | Hu].
    - apply classify_syscall_errno; assumption.
    - apply classify_unexpected_want; assumption. }
  rewrite Hs. simpl. rewrite getPollEvents_spec. simpl.
  repeat split; intros ->; reflexivity.
Qed.

End ClassifierClaims.

(** ** The handshake driver *)

Section Handshake.

Context {E B : Type} `{Engine E} `{Transport B}.

Implicit Types s : @SslStreamSocket E B.

Lemma appended_same_calls Q s s' : calls s' = calls s -> appended Q s s'.
Proof. intros Hc. exists []. rewrite app_nil_r. split; [exact Hc | reflexivity]. Qed.

Lemma handshake_loop_step fuel s :
  handshake_loop (S fuel) s =
  (let (rc, e) := SSL_do_handshake (_ssl s) in
   let s1 := engine_step e (Call_SSL_do_handshake rc) s in
   if (rc <? 0) && (errno e =? EINTR) then handshake_loop fuel s1 else (Returns rc, s1)).
Proof.
  simpl. step_monad. destruct (SSL_do_handshake (_ssl s)) as [rc e]. simpl.
  destruct ((rc <? 0) && (errno e =? EINTR)); reflexivity.
Qed.

(** The loop touches the engine and the log only; it returns the result
    of its last step, which was not an interrupted one. *)

Lemma handshake_loop_inv fuel : forall s,
  let r := handshake_loop fuel s in
  base (snd r) = base s /\ _sslWantsTo (snd r) = _sslWantsTo s
  /\ _doHandshake (snd r) = _doHandshake s
  /\ match fst r with
     | Returns rc =>
         (exists l, calls (snd r) = calls s ++ l ++ [Call_SSL_do_handshake rc]
                    /\ forallb is_handshake l = true)
         /\ (rc <? 0) && (errno (_ssl (snd r)) =? EINTR) = false
     | Spins => exists l, calls (snd r) = calls s ++ l /\ forallb is_handshake l = true
     | _ => False
     end.
Proof.
  induction fuel as [| fuel IH]; intros s.
  - simpl. repeat split. exists []. rewrite app_nil_r. split; reflexivity.
  - cbv zeta. rewrite handshake_loop_step.
    destruct (SSL_do_handshake (_ssl s)) as [rc e]. cbv zeta.
    destruct ((rc <? 0) && (errno e =? EINTR)) eqn:Hint.
    + specialize (IH (engine_step e (Call_SSL_do_handshake rc) s)).
      cbv zeta in IH. destruct IH as [Hb [Hw [Hd Hl]]].
      repeat split; try assumption.
      destruct (fst (handshake_loop fuel _)) as [rc' | | |]; try exact Hl.
      * destruct Hl as [[l [Hc Hf]] Hn]. split; [| exact Hn].
        exists (Call_SSL_do_handshake rc :: l). split.
        -- rewrite Hc. simpl. rewrite <- app_assoc. reflexivity.
        -- simpl. exact Hf.
      * destruct Hl as [l [Hc Hf]]. exists (Call_SSL_do_handshake rc :: l). split.
        -- rewrite Hc. simpl. rewrite <- app_assoc. reflexivity.
        -- simpl. exact Hf.
    + simpl. repeat split; [| exact Hint]. exists []. split; reflexivity.
Qed.

(** Enough fuel: a step that is not interrupted ends the loop. *)

Lemma handshake_loop_uninterrupted fuel s :
  (fst (SSL_do_handshake (_ssl s)) <? 0)
  && (errno (snd (SSL_do_handshake (_ssl s))) =? EINTR) = false ->
  handshake_loop (S fuel) s =
  (Returns (fst (SSL_do_handshake (_ssl s))),
   engine_step (snd (SSL_do_handshake (_ssl s)))
     (Call_SSL_do_handshake (fst (SSL_do_handshake (_ssl s)))) s).
Proof.
  intros Hn. rewrite handshake_loop_step.
  destruct (SSL_do_handshake (_ssl s)) as [rc e]. simpl in *. rewrite Hn. reflexivity.
Qed.

(** More fuel never changes a result that was reached. *)

Lemma handshake_loop_fuel fuel : forall s extra,
  fst (handshake_loop fuel s) <> Spins ->
  handshake_loop (fuel + extra) s = handshake_loop fuel s.
Proof.
  induction fuel as [| fuel IH]; intros s extra Hr.
  - simpl in Hr. congruence.
  - change (S fuel + extra)%nat with (S (fuel + extra)).
    rewrite !handshake_loop_step. rewrite handshake_loop_step in Hr.
    destruct (SSL_do_handshake (_ssl s)) as [rc e]. cbv zeta in *.
    destruct ((rc <? 0) && (errno e =? EINTR)); [apply IH; exact Hr | reflexivity].
Qed.

Lemma classify_result s rc r s' :
  classify_error rc s = (Returns r, s') -> r = rc \/ r = 0.
Proof.
  unfold classify_error. step_monad.
  repeat (match goal with |- context [if ?b then _ else _] => destruct b end; simpl);
    try (destruct (ERR_get_error (_ssl s)) as [bioError e']; simpl;
         repeat (match goal with |- context [if ?b then _ else _] => destruct b end;
                 simpl));
    intros Hr; inversion Hr; auto.
Qed.

Lemma handleSslState_result_nonpositive s rc r s' :
  rc <= 0 -> handleSslState rc s = (Returns r, s') -> r <= 0.
Proof.
  intros Hrc Hr. destruct (isCorrectThread (base s)) eqn:Ht.
  - rewrite handleSslState_nonpositive in Hr by assumption.
    apply classify_result in Hr. lia.
  - rewrite handleSslState_wrong_thread in Hr by assumption. discriminate.
Qed.

End Handshake.

(** ** The entry points *)

Section EntryPoints.

Context {E B : Type} `{Engine E} `{Transport B}.

Implicit Types s : @SslStreamSocket E B.

Lemma past_handshake_wants v s : past_handshake s (set_sslWantsTo v s).
Proof. split; [reflexivity | apply appended_same_calls; reflexivity]. Qed.

Lemma past_handshake_base b s : past_handshake s (set_base b s).
Proof. split; [reflexivity | apply appended_same_calls; reflexivity]. Qed.

Lemma past_handshake_call e c s :
  negb (is_handshake c) = true -> past_handshake s (engine_step e c s).
Proof. intros Hc. split; [reflexivity | apply appended_call; exact Hc]. Qed.

Ltac by_frame lemma :=
  first [apply lemma with (Q := fun c => negb (is_handshake c)) | apply lemma];
  eauto using past_handshake_refl, past_handshake_trans, past_handshake_wants,
    past_handshake_base, past_handshake_call.

Lemma handleSslState_past rc : stays (@past_handshake E B) (handleSslState rc).
Proof. by_frame @stays_handleSslState. Qed.

Lemma readData_past len : stays (@past_handshake E B) (readData len).
Proof. by_frame @stays_readData. Qed.

Lemma writeData_past len : stays (@past_handshake E B) (writeData len).
Proof. by_frame @stays_writeData. Qed.

Lemma default_readIncomingData_past : stays (@past_handshake E B) default_readIncomingData.
Proof. by_frame @stays_default_readIncomingData. Qed.

Lemma default_writeOutgoingData_past : stays (@past_handshake E B) default_writeOutgoingData.
Proof. by_frame @stays_default_writeOutgoingData. Qed.

Lemma getPollEvents_past : stays (@past_handshake E B) getPollEvents.
Proof. by_frame @stays_getPollEvents. Qed.

Lemma shutdown_past : stays (@past_handshake E B) shutdown.
Proof. by_frame @stays_shutdown. Qed.

Lemma snd_void {A} (m : @M E B A) s : snd (void m s) = snd (m s).
Proof. unfold void, bind, ret. destruct (m s) as [[a | what | |] s1]; reflexivity. Qed.

(** Once the handshake is done the driver is a thread check and [return 1]. *)

Lemma doHandshake_bypassed fuel s :
  _doHandshake s = false ->
  doHandshake fuel s = (if isCorrectThread (base s) then Returns 1 else Aborts, s).
Proof.
  intros Hd. unfold doHandshake. step_monad.
  destruct (isCorrectThread (base s)); simpl; [rewrite Hd |]; reflexivity.
Qed.

Lemma readIncomingData_bypassed fuel s :
  _doHandshake s = false ->
  readIncomingData fuel s =
  if isCorrectThread (base s) then default_readIncomingData s else (Aborts, s).
Proof.
  intros Hd. unfold readIncomingData.
  unfold bind at 1. unfold assertCorrectThread. step_monad.
  destruct (isCorrectThread (base s)) eqn:Ht; [| reflexivity].
  rewrite doHandshake_bypassed by assumption. rewrite Ht. reflexivity.
Qed.

Lemma writeOutgoingData_bypassed fuel s :
  _doHandshake s = false ->
  writeOutgoingData fuel s =
  if isCorrectThread (base s) then default_writeOutgoingData s else (Aborts, s).
Proof.
  intros Hd. unfold writeOutgoingData.
  unfold bind at 1. unfold assertCorrectThread. step_monad.
  destruct (isCorrectThread (base s)) eqn:Ht; [| reflexivity].
  rewrite doHandshake_bypassed by assumption. rewrite Ht. reflexivity.
Qed.

Lemma run_past_handshake fuel op s :
  _doHandshake s = false -> past_handshake s (snd (run fuel op s)).
Proof.
  intros Hd. destruct op; simpl; rewrite ?snd_void.
  - apply shutdown_past.
  - rewrite readIncomingData_bypassed by assumption.
    destruct (isCorrectThread (base s));
      [apply default_readIncomingData_past | apply past_handshake_refl].
  - rewrite writeOutgoingData_bypassed by assumption.
    destruct (isCorrectThread (base s));
      [apply default_writeOutgoingData_past | apply past_handshake_refl].
  - apply readData_past.
  - apply writeData_past.
  - apply getPollEvents_past.
  - rewrite doHandshake_bypassed by assumption. apply past_handshake_refl.
  - apply handleSslState_past.
Qed.

Lemma run_all_past_handshake fuel ops : forall s,
  _doHandshake s = false -> past_handshake s (run_all fuel ops s).
Proof.
  induction ops as [| op ops IH]; intros s Hd; simpl.
  - apply past_handshake_refl.
  - pose proof (run_past_handshake fuel op s Hd) as Hstep.
    eapply past_handshake_trans; [exact Hstep |].
    apply IH. destruct Hstep as [Hsame _]. unfold same in Hsame. congruence.
Qed.

Lemma completed_then_past s s1 s' :
  completed_handshake s s1 -> past_handshake s1 s' -> completed_handshake s s'.
Proof.
  intros [l1 [rc [l2 [Hc [Hrc Hq]]]]] [_ [l [Hc' Hq']]].
  exists l1, rc, (l2 ++ l). repeat split.
  - rewrite Hc', Hc. rewrite <- !app_assoc. reflexivity.
  - exact Hrc.
  - rewrite forallb_app, Hq, Hq'. reflexivity.
Qed.

(** The driver clears [_doHandshake] only after a step with a positive
    result, and then returns 1. *)

Lemma doHandshake_completion fuel s :
  _doHandshake s = true ->
  _doHandshake (snd (doHandshake fuel s)) = false ->
  fst (doHandshake fuel s) = Returns 1
  /\ completed_handshake s (snd (doHandshake fuel s)).
Proof.
  intros Hd. unfold doHandshake. step_monad.
  destruct (isCorrectThread (base s)) eqn:Ht; simpl; [| congruence].
  rewrite Hd.
  pose proof (handshake_loop_inv fuel s) as Hl. cbv zeta in Hl.
  destruct (handshake_loop fuel s) as [o s1]. simpl in Hl.
  destruct Hl as [_ [_ [Hd1 Hl]]]. rewrite Hd in Hd1.
  destruct o as [rc | what | |]; simpl; try congruence.
  destruct (Z.leb_spec rc 0) as [Hrc | Hrc].
  - pose proof (handleSslState_past rc s1) as [Hsame _]. unfold same in Hsame.
    destruct (handleSslState rc s1) as [o2 s2] eqn:Hh. simpl in Hsame.
    destruct o2 as [rc' | what | |]; simpl; try congruence.
    apply handleSslState_result_nonpositive in Hh; [| exact Hrc].
    destruct (Z.leb_spec rc' 0); [simpl; congruence | lia].
  - simpl. intros _. split; [reflexivity |].
    destruct Hl as [[l [Hc _]] _]. exists l, rc, []. repeat split; assumption.
Qed.

Lemma readIncomingData_completion fuel s :
  _doHandshake s = true ->
  _doHandshake (snd (readIncomingData fuel s)) = false ->
  completed_handshake s (snd (readIncomingData fuel s)).
Proof.
  intros Hd. pose proof (doHandshake_completion fuel s Hd) as Hc.
  unfold readIncomingData. unfold bind at 1. unfold assertCorrectThread. step_monad.
  destruct (isCorrectThread (base s)) eqn:Ht; simpl; [| congruence].
  destruct (doHandshake fuel s) as [o s1]. simpl in Hc.
  pose proof (default_readIncomingData_past s1) as Hp.
  destruct (_doHandshake s1) eqn:Hd1.
  - destruct o as [rc | what | |]; simpl; try congruence.
    destruct (rc <=? 0); simpl; [congruence |].
    destruct Hp as [Hsame _]. unfold same in Hsame. congruence.
  - destruct (Hc eq_refl) as [-> Hcomp]. intros _.
    change (1 <=? 0) with false. cbv iota.
    eapply completed_then_past; eassumption.
Qed.

Lemma writeOutgoingData_completion fuel s :
  _doHandshake s = true ->
  _doHandshake (snd (writeOutgoingData fuel s)) = false ->
  completed_handshake s (snd (writeOutgoingData fuel s)).
Proof.
  intros Hd. pose proof (doHandshake_completion fuel s Hd) as Hc.
  unfold writeOutgoingData. unfold bind at 1. unfold assertCorrectThread. step_monad.
  destruct (isCorrectThread (base s)) eqn:Ht; simpl; [| congruence].
  destruct (doHandshake fuel s) as [o s1]. simpl in Hc.
  pose proof (default_writeOutgoingData_past s1) as Hp.
  destruct (_doHandshake s1) eqn:Hd1.
  - destruct o as [rc | what | |]; simpl; try congruence.
    destruct (rc <=? 0); simpl; [congruence |].
    destruct Hp as [Hsame _]. unfold same in Hsame. congruence.
  - destruct (Hc eq_refl) as [-> Hcomp]. intros _.
    change (1 <=? 0) with false. cbv iota.
    eapply completed_then_past; eassumption.
Qed.

(** C4: handshake-done only ever goes from false to true.  An operation
    started with the handshake done leaves it done and takes no handshake
    step, and so does every sequence of operations; an operation that
    ends the handshake took a handshake step with a positive result as
    its last one. *)
Theorem handshake_done_is_monotonic fuel op s :
  (_doHandshake s = false -> past_handshake s (snd (run fuel op s)))
  /\ (_doHandshake s = false -> forall ops, past_handshake s (run_all fuel ops s))
  /\ (_doHandshake s = true -> _doHandshake (snd (run fuel op s)) = false ->
      completed_handshake s (snd (run fuel op s))).
Proof.
  split; [apply run_past_handshake |].
  split; [intros Hd ops; apply run_all_past_handshake; exact Hd |].
  intros Hd. destruct op; simpl; rewrite ?snd_void.
  - pose proof (shutdown_past s) as [Hs _]. unfold same in Hs. congruence.
  - apply readIncomingData_completion. exact Hd.
  - apply writeOutgoingData_completion. exact Hd.
  - pose proof (readData_past len s) as [Hs _]. unfold same in Hs. congruence.
  - pose proof (writeData_past len s) as [Hs _]. unfold same in Hs. congruence.
  - pose proof (getPollEvents_past s) as [Hs _]. unfold same in Hs. congruence.
  - intros Hf. apply doHandshake_completion; assumption.
  - pose proof (handleSslState_past rc s) as [Hs _]. unfold same in Hs. congruence.
Qed.

Lemma run_no_empty_write fuel op s :
  appended no_empty_write s (snd (run fuel op s)).
Proof.
  apply stays_run with (Q := no_empty_write);
    eauto using appended_refl, appended_trans, appended_same_calls, appended_call.
Qed.

(** C9: [writeData] with a length of 0 (or less) fails its assertion
    before anything else happens, whatever the handshake state, and no
    operation ever hands the engine's write path a length that is not
    positive. *)
Theorem writeData_rejects_empty s len :
  len <= 0 ->
  writeData len s = (Aborts, s)
  /\ (forall fuel op s0, appended no_empty_write s0 (snd (run fuel op s0))).
Proof.
  intros Hlen. split; [| intros; apply run_no_empty_write].
  unfold writeData. step_monad.
  destruct (isCorrectThread (base s)); simpl; [| reflexivity].
  destruct (Z.gtb_spec len 0); [lia | reflexivity].
Qed.

Lemma since_appended s s' l : calls s' = calls s ++ l -> since s s' = l.
Proof.
  intros Hc. unfold since. rewrite Hc. clear Hc.
  induction (calls s) as [| c l0 IH]; [reflexivity | exact IH].
Qed.

Lemma shutdown_spec s :
  shutdown s =
  (Returns tt,
   let (rc1, e1) := SSL_shutdown (_ssl s) in
   let s1 := engine_step e1 (Call_SSL_shutdown rc1) s in
   if rc1 =? 0 then
     let (rc2, e2) := SSL_shutdown e1 in engine_step e2 (Call_SSL_shutdown rc2) s1
   else s1).
Proof.
  unfold shutdown. step_monad.
  destruct (SSL_shutdown (_ssl s)) as [rc1 e1]. simpl.
  destruct (rc1 =? 0); simpl; [| reflexivity].
  destruct (SSL_shutdown e1) as [rc2 e2]. reflexivity.
Qed.

Lemma shutdown_calls s :
  since s (snd (shutdown s)) =
  if fst (SSL_shutdown (_ssl s)) =? 0
  then [Call_SSL_shutdown (fst (SSL_shutdown (_ssl s)));
        Call_SSL_shutdown (fst (SSL_shutdown (snd (SSL_shutdown (_ssl s)))))]
  else [Call_SSL_shutdown (fst (SSL_shutdown (_ssl s)))].
Proof.
  apply since_appended. rewrite shutdown_spec. simpl.
  destruct (SSL_shutdown (_ssl s)) as [rc1 e1]. simpl.
  destruct (rc1 =? 0); simpl; [| reflexivity].
  destruct (SSL_shutdown e1) as [rc2 e2]. simpl. rewrite <- app_assoc. reflexivity.
Qed.

Lemma shutdown_state s :
  shutdown s =
  (Returns tt,
   if fst (SSL_shutdown (_ssl s)) =? 0
   then engine_step (snd (SSL_shutdown (snd (SSL_shutdown (_ssl s)))))
          (Call_SSL_shutdown (fst (SSL_shutdown (snd (SSL_shutdown (_ssl s))))))
          (engine_step (snd (SSL_shutdown (_ssl s)))
             (Call_SSL_shutdown (fst (SSL_shutdown (_ssl s)))) s)
   else engine_step (snd (SSL_shutdown (_ssl s)))
          (Call_SSL_shutdown (fst (SSL_shutdown (_ssl s)))) s).
Proof.
  rewrite shutdown_spec. destruct (SSL_shutdown (_ssl s)) as [rc1 e1]. simpl.
  destruct (rc1 =? 0); [| reflexivity].
  destruct (SSL_shutdown e1) as [rc2 e2]. reflexivity.
Qed.

Lemma shutdown_log s :
  calls (snd (shutdown s)) = calls s ++ since s (snd (shutdown s)).
Proof.
  rewrite shutdown_calls. rewrite shutdown_state. simpl.
  destruct (fst (SSL_shutdown (_ssl s)) =? 0); simpl; [| reflexivity].
  rewrite <- app_assoc. reflexivity.
Qed.

Lemma since_twice s s' s'' l1 l2 :
  calls s' = calls s ++ l1 -> calls s'' = calls s' ++ l2 -> since s s'' = l1 ++ l2.
Proof.
  intros H1 H2. apply since_appended. rewrite H2, H1, app_assoc. reflexivity.
Qed.

(** C7 (as amended): one [shutdown] always returns; it hands the engine
    one close-notify attempt, and a second one exactly when the first
    reported 0, whatever the second reports, and makes no other engine
    call.  The bound is per call: a second [shutdown] right after the
    first starts over, so the two together make the sum of their
    attempts, between two and four. *)
Theorem shutdown_attempts_bounded s :
  let rc1 := fst (SSL_shutdown (_ssl s)) in
  let e1 := snd (SSL_shutdown (_ssl s)) in
  let rc2 := fst (SSL_shutdown e1) in
  let e2 := snd (SSL_shutdown e1) in
  let s1 := engine_step e1 (Call_SSL_shutdown rc1) s in
  let s' := snd (shutdown s) in
  let s'' := snd (shutdown s') in
  shutdown s
  = (Returns tt, if rc1 =? 0 then engine_step e2 (Call_SSL_shutdown rc2) s1 else s1)
  /\ attempts s s' = (if rc1 =? 0 then 2%nat else 1%nat)
  /\ List.length (since s s') = attempts s s'
  /\ fst (shutdown s') = Returns tt
  /\ attempts s' s'' = (if fst (SSL_shutdown (_ssl s')) =? 0 then 2%nat else 1%nat)
  /\ attempts s s'' = (attempts s s' + attempts s' s'')%nat
  /\ (2 <= attempts s s'' <= 4)%nat
  /\ List.length (since s s'') = attempts s s''.
Proof.
  assert (Hone : forall s0 : @SslStreamSocket E B,
             attempts s0 (snd (shutdown s0))
             = (if fst (SSL_shutdown (_ssl s0)) =? 0 then 2%nat else 1%nat)
             /\ List.length (since s0 (snd (shutdown s0))) = attempts s0 (snd (shutdown s0))).
  { intros s0. unfold attempts. rewrite shutdown_calls.
    destruct (fst (SSL_shutdown (_ssl s0)) =? 0); split; reflexivity. }
  cbv zeta. destruct (Hone s) as [H1 H2].
  destruct (Hone (snd (shutdown s))) as [H3 H4].
  assert (Hboth : since s (snd (shutdown (snd (shutdown s))))
                  = since s (snd (shutdown s))
                    ++ since (snd (shutdown s)) (snd (shutdown (snd (shutdown s))))).
  { eapply since_twice; apply shutdown_log. }
  assert (Hsum : attempts s (snd (shutdown (snd (shutdown s))))
                 = (attempts s (snd (shutdown s))
                    + attempts (snd (shutdown s)) (snd (shutdown (snd (shutdown s)))))%nat).
  { unfold attempts. rewrite Hboth, filter_app, length_app. reflexivity. }
  split; [apply shutdown_state |].
  split; [exact H1 |]. split; [exact H2 |].
  split; [rewrite shutdown_state; reflexivity |].
  split; [exact H3 |]. split; [exact Hsum |]. split.
  - rewrite Hsum, H1, H3.
    destruct (fst (SSL_shutdown (_ssl s)) =? 0);
      destruct (fst (SSL_shutdown (_ssl (snd (shutdown s)))) =? 0); lia.
  - rewrite Hsum, Hboth, length_app, H2, H4. reflexivity.
Qed.

(** A suspended handshake step: the classifier hands back the negative
    code, and [return (rc != 0)] turns it into 1. *)

#[local] Arguments handshake_loop : simpl never.

Lemma doHandshake_suspended fuel s :
  isCorrectThread (base s) = true -> _doHandshake s = true ->
  let rc := fst (SSL_do_handshake (_ssl s)) in
  let s1 := engine_step (snd (SSL_do_handshake (_ssl s))) (Call_SSL_do_handshake rc) s in
  rc < 0 -> errno (_ssl s1) <> EINTR ->
  handleSslState rc s1 = (Returns rc, snd (handleSslState rc s1)) ->
  doHandshake (S fuel) s = (Returns 1, snd (handleSslState rc s1)).
Proof.
  intros Ht Hd rc s1 Hrc He Hh.
  assert (Hloop : handshake_loop (S fuel) s = (Returns rc, s1)).
  { apply handshake_loop_uninterrupted. apply Z.eqb_neq in He. simpl in He.
    rewrite He. apply andb_false_r. }
  unfold doHandshake. step_monad. rewrite Ht. simpl.
  rewrite Hd, Hloop.
  destruct (Z.leb_spec rc 0); [| lia]. rewrite Hh.
  destruct (Z.leb_spec rc 0); [| lia].
  destruct (Z.eqb_spec rc 0); [lia | reflexivity].
Qed.

Lemma readIncomingData_suspended fuel s :
  isCorrectThread (base s) = true -> _doHandshake s = true ->
  let rc := fst (SSL_do_handshake (_ssl s)) in
  let s1 := engine_step (snd (SSL_do_handshake (_ssl s))) (Call_SSL_do_handshake rc) s in
  rc < 0 -> errno (_ssl s1) <> EINTR ->
  handleSslState rc s1 = (Returns rc, snd (handleSslState rc s1)) ->
  readIncomingData (S fuel) s = default_readIncomingData (snd (handleSslState rc s1)).
Proof.
  intros Ht Hd rc s1 Hrc He Hh. unfold readIncomingData.
  unfold bind at 1. unfold assertCorrectThread. step_monad. rewrite Ht.
  pose proof (doHandshake_suspended fuel s Ht Hd Hrc He Hh) as Hdh.
  fold rc s1 in Hdh. rewrite Hdh. reflexivity.
Qed.

End EntryPoints.

(** ** Concrete runs *)

(** C1 (fails on the code): a read on a fresh connection whose handshake
    step is suspended on need-input.  [doHandshake] returns 1, so
    [readIncomingData] goes on to the default implementation and
    [SSL_read] is called with the handshake still pending. *)
Theorem readIncomingData_reads_during_handshake :
  let s := awaiting_client_hello in
  let r := readIncomingData 1 s in
  _doHandshake s = true
  /\ SSL_do_handshake (_ssl s)
     = (-1, mkScripted EAGAIN SSL_ERROR_WANT_READ [success 1] [want_read] [] [] [])
  /\ fst (doHandshake 1 s) = Returns 1
  /\ fst r = Returns true
  /\ _doHandshake (snd r) = true
  /\ calls (snd r)
     = [Call_SSL_do_handshake (-1); Call_SSL_get_error (-1) SSL_ERROR_WANT_READ;
        Call_SSL_read block (-1); Call_SSL_get_error (-1) SSL_ERROR_WANT_READ]
  /\ existsb is_read (calls (snd r)) = true.
Proof. repeat split. Qed.

(** The override at work: outbound bytes are buffered, so the base
    transport asks for read and write, and the adapter for write only. *)

Example getPollEvents_outbound_buffered :
  StreamSocket_getPollEvents (base established) = Z.lor POLLIN POLLOUT
  /\ getPollEvents established = (Returns POLLOUT, established)
  /\ getPollEvents (set_sslWantsTo SslWantsTo.Read established)
     = (Returns POLLIN, set_sslWantsTo SslWantsTo.Read established).
Proof. repeat split. Qed.

Lemma handleSslState_records_want_witness :
  isCorrectThread (base step_wants_input) = true
  /\ handleSslState (-1) step_wants_input
     = (Returns (-1), set_sslWantsTo SslWantsTo.Read (classified (-1) step_wants_input))
  /\ handleSslState (-1) step_wants_output
     = (Returns (-1), set_sslWantsTo SslWantsTo.Write (classified (-1) step_wants_output)).
Proof.
  split; [reflexivity |]. split.
  - apply (proj1 (@handleSslState_records_want _ _ Scripted_Engine Buffered_Transport step_wants_input (-1) eq_refl));
      [lia | reflexivity].
  - apply (proj1 (proj2 (@handleSslState_records_want _ _ Scripted_Engine Buffered_Transport step_wants_output (-1) eq_refl)));
      [lia | reflexivity].
Defined.

(** C2 as stated fails: the peer closes while want-state is Read; the
    classifier returns 0 and want-state is still Read, although the
    operation just classified did not signal need-input. *)
Lemma want_state_outlives_its_signal :
  handleSslState 0 closed_while_waiting = (Returns 0, classified 0 closed_while_waiting)
  /\ ~ tracks_last_signal 0 closed_while_waiting (snd (handleSslState 0 closed_while_waiting)).
Proof.
  split; [reflexivity |].
  intros [[Hr _] _]. specialize (Hr eq_refl). vm_compute in Hr. discriminate Hr.
Qed.

Lemma handshake_done_is_monotonic_witness :
  past_handshake established (snd (run 1 Op_readIncomingData established))
  /\ past_handshake established
       (run_all 1 [Op_readIncomingData; Op_writeOutgoingData; Op_shutdown] established)
  /\ completed_handshake last_flight (snd (run 1 Op_writeOutgoingData last_flight)).
Proof.
  split; [| split].
  - apply (proj1 (handshake_done_is_monotonic 1 Op_readIncomingData established)).
    reflexivity.
  - apply (proj1 (proj2 (handshake_done_is_monotonic 1 Op_shutdown established)));
      reflexivity.
  - apply (proj2 (proj2 (handshake_done_is_monotonic 1 Op_writeOutgoingData last_flight)));
      reflexivity.
Defined.

Lemma handleSslState_consults_queue_witness :
  fst (handleSslState (-1) faulted) = Throws (substring 0 511 (describe bad_record))
  /\ fst (handleSslState (-1) vanished) = Throws "SSL Socket closed unexpectedly."%string
  /\ fst (handleSslState 0 vanished) = Returns 0.
Proof.
  assert (Hneg : -1 <= 0) by lia.
  assert (Hzero : 0 <= 0) by lia.
  pose proof (@handleSslState_consults_queue _ _ Scripted_Engine Buffered_Transport
                faulted (-1) eq_refl Hneg eq_refl eq_refl) as Hfault.
  pose proof (@handleSslState_consults_queue _ _ Scripted_Engine Buffered_Transport
                vanished (-1) eq_refl Hneg eq_refl eq_refl) as Hgone.
  pose proof (@handleSslState_consults_queue _ _ Scripted_Engine Buffered_Transport
                vanished 0 eq_refl Hzero eq_refl eq_refl) as Hclosed.
  cbv zeta in Hfault, Hgone, Hclosed.
  destruct Hfault as [_ [_ [_ Hfault]]].
  destruct Hgone as [_ [_ [Hgone _]]].
  destruct Hclosed as [_ [Hclosed _]].
  split; [| split].
  - apply Hfault. vm_compute. discriminate.
  - apply Hgone; reflexivity.
  - apply Hclosed; reflexivity.
Defined.

Lemma handleSslState_syscall_passthrough_witness :
  errno (_ssl reset_while_waiting) = ECONNRESET
  /\ handleSslState (-1) reset_while_waiting
     = (Returns (-1), classified (-1) reset_while_waiting).
Proof.
  split; [reflexivity |].
  assert (Hneg : -1 <= 0) by lia.
  assert (Herrno : errno (_ssl reset_while_waiting) <> 0) by (vm_compute; discriminate).
  exact (proj1 (@handleSslState_syscall_passthrough _ _ Scripted_Engine Buffered_Transport
                  reset_while_waiting (-1) eq_refl Hneg eq_refl Herrno)).
Defined.

(** C8 as stated fails for the handshake: a step that succeeds is not
    given to the classifier.  The write callback completes the handshake
    and want-state is still Read; with outbound bytes buffered the
    interest stays read only, not the base transport's read and write. *)
Lemma handshake_success_keeps_want :
  fst (writeOutgoingData 1 after_first_read) = Returns tt
  /\ since after_first_read (snd (writeOutgoingData 1 after_first_read))
     = [Call_SSL_do_handshake 1]
  /\ _doHandshake (snd (writeOutgoingData 1 after_first_read)) = false
  /\ _sslWantsTo (snd (writeOutgoingData 1 after_first_read)) <> SslWantsTo.Neither
  /\ fst (doHandshake 1 last_flight) = Returns 1
  /\ _doHandshake (snd (doHandshake 1 last_flight)) = false
  /\ _sslWantsTo (snd (doHandshake 1 last_flight)) <> SslWantsTo.Neither
  /\ fst (getPollEvents (snd (doHandshake 1 last_flight)))
     <> Returns (StreamSocket_getPollEvents (base (snd (doHandshake 1 last_flight)))).
Proof. repeat split; vm_compute; discriminate. Qed.

Lemma writeData_rejects_empty_witness :
  _doHandshake established = false /\ _doHandshake awaiting_client_hello = true
  /\ writeData 0 established = (Aborts, established)
  /\ writeData 0 awaiting_client_hello = (Aborts, awaiting_client_hello).
Proof.
  assert (Hzero : 0 <= 0) by lia.
  split; [reflexivity |]. split; [reflexivity |]. split.
  - apply (proj1 (writeData_rejects_empty established 0 Hzero)).
  - apply (proj1 (writeData_rejects_empty awaiting_client_hello 0 Hzero)).
Defined.

Lemma handleSslState_passthrough_keeps_want_witness :
  _sslWantsTo reset_while_waiting = SslWantsTo.Read
  /\ fst (handleSslState (-1) reset_while_waiting) = Returns (-1)
  /\ _sslWantsTo (snd (handleSslState (-1) reset_while_waiting)) = SslWantsTo.Read.
Proof.
  split; [reflexivity |].
  assert (Hc : SSL_get_error (-1) (_ssl reset_while_waiting) = SSL_ERROR_SYSCALL
               /\ errno (_ssl reset_while_waiting) <> 0
               \/ unexpected_want (SSL_get_error (-1) (_ssl reset_while_waiting)) = true).
  { left. split; [reflexivity | vm_compute; discriminate]. }
  assert (Hrc : -1 <= 0) by lia.
  pose proof (@handleSslState_passthrough_keeps_want _ _ Scripted_Engine
                Buffered_Transport reset_while_waiting (-1) eq_refl Hrc Hc) as Hw.
  cbv zeta in Hw. destruct Hw as [Hr [Hk _]]. split; [exact Hr | exact Hk].
Defined.

(** * More of the class *)

(** ** The handshake loop and the driver *)

Section Driver.

Context {E B : Type} `{Engine E} `{Transport B}.

Implicit Types s : @SslStreamSocket E B.

#[local] Arguments handshake_loop : simpl never.

Lemma handshake_loop_next fuel s :
  handshake_loop (S fuel) s =
  if interrupted s then handshake_loop fuel (handshake_step s)
  else (Returns (fst (SSL_do_handshake (_ssl s))), handshake_step s).
Proof.
  rewrite handshake_loop_step. unfold interrupted, handshake_step.
  destruct (SSL_do_handshake (_ssl s)) as [rc e]. reflexivity.
Qed.

(** X1: the loop retries in place: after [n] interrupted steps and one that
    is not, any fuel above [n] gives the result of that last step, with
    [n + 1] handshake calls made. *)
Theorem handshake_loop_retries_interrupts n : forall s extra,
  interrupted_for n s = true -> interrupted (after_steps n s) = false ->
  handshake_loop (S n + extra) s
  = (Returns (fst (SSL_do_handshake (_ssl (after_steps n s)))), after_steps (S n) s).
Proof.
  induction n as [| n IH]; intros s extra Hint Hlast.
  - simpl in Hlast. change (1 + extra)%nat with (S extra).
    rewrite handshake_loop_next, Hlast. reflexivity.
  - simpl in Hint. apply andb_true_iff in Hint. destruct Hint as [Hnow Hrest].
    change (S (S n) + extra)%nat with (S (S n + extra)).
    rewrite handshake_loop_next, Hnow.
    apply (IH (handshake_step s) extra Hrest Hlast).
Qed.

(** X2: whatever the fuel, a result the loop returns is never an interrupted
    one, the calls it made are handshake steps ending with the one that
    gave the result, and the fields of the object are as they were. *)
Theorem handshake_loop_surfaces_no_interrupt fuel s rc s' :
  handshake_loop fuel s = (Returns rc, s') ->
  (rc <? 0) && (errno (_ssl s') =? EINTR) = false
  /\ (exists l, since s s' = l ++ [Call_SSL_do_handshake rc]
                /\ forallb is_handshake l = true)
  /\ base s' = base s /\ _sslWantsTo s' = _sslWantsTo s
  /\ _doHandshake s' = _doHandshake s.
Proof.
  intros Hr. pose proof (handshake_loop_inv fuel s) as Hinv. cbv zeta in Hinv.
  rewrite Hr in Hinv. simpl in Hinv.
  destruct Hinv as [Hb [Hw [Hd [[l [Hc Hl]] Hn]]]].
  repeat split; try assumption.
  exists l. split; [| exact Hl]. apply since_appended. exact Hc.
Qed.

Lemma doHandshake_pending fuel s :
  isCorrectThread (base s) = true -> _doHandshake s = true ->
  doHandshake fuel s = bind (handshake_loop fuel) handshake_outcome s.
Proof.
  intros Ht Hd. unfold doHandshake. unfold bind at 1 2.
  unfold assertCorrectThread. unfold bind at 1. unfold get, assert.
  rewrite Ht, Hd. reflexivity.
Qed.

Lemma doHandshake_step fuel s :
  isCorrectThread (base s) = true -> _doHandshake s = true ->
  interrupted s = false ->
  doHandshake (S fuel) s
  = handshake_outcome (fst (SSL_do_handshake (_ssl s))) (handshake_step s).
Proof.
  intros Ht Hd Hi. rewrite doHandshake_pending by assumption.
  unfold bind. rewrite handshake_loop_next, Hi. reflexivity.
Qed.

Lemma after_steps_inv n : forall s,
  base (after_steps n s) = base s /\ _sslWantsTo (after_steps n s) = _sslWantsTo s
  /\ _doHandshake (after_steps n s) = _doHandshake s
  /\ exists l, calls (after_steps n s) = calls s ++ l
               /\ forallb is_handshake l = true /\ List.length l = n.
Proof.
  induction n as [| n IH]; intros s.
  - repeat split. exists []. rewrite app_nil_r. repeat split.
  - simpl. destruct (IH (handshake_step s)) as [Hb [Hw [Hd [l [Hc [Hq Hlen]]]]]].
    repeat split; try assumption.
    exists (Call_SSL_do_handshake (fst (SSL_do_handshake (_ssl s))) :: l).
    split; [| split].
    + rewrite Hc. simpl. rewrite <- app_assoc. reflexivity.
    + exact Hq.
    + simpl. rewrite Hlen. reflexivity.
Qed.

(** Enough fuel for [doHandshake]: after [n] interrupted steps and one
    that is not, the driver goes on with the result of that step. *)

Lemma doHandshake_after_retries n : forall s extra,
  isCorrectThread (base s) = true -> _doHandshake s = true ->
  interrupted_for n s = true -> interrupted (after_steps n s) = false ->
  doHandshake (S n + extra) s
  = handshake_outcome (fst (SSL_do_handshake (_ssl (after_steps n s))))
      (after_steps (S n) s).
Proof.
  induction n as [| n IH]; intros s extra Ht Hd Hint Hlast.
  - simpl in Hlast. change (1 + extra)%nat with (S extra).
    apply doHandshake_step; assumption.
  - simpl in Hint. apply andb_true_iff in Hint. destruct Hint as [Hnow Hrest].
    change (S (S n) + extra)%nat with (S (S n + extra)).
    rewrite doHandshake_pending by assumption.
    unfold bind. rewrite handshake_loop_next, Hnow.
    change (bind (handshake_loop (S n + extra)) handshake_outcome (handshake_step s)
            = handshake_outcome
                (fst (SSL_do_handshake (_ssl (after_steps (S n) s))))
                (after_steps (S (S n)) s)).
    rewrite <- doHandshake_pending by assumption.
    apply (IH (handshake_step s) extra Ht Hd Hrest Hlast).
Qed.

(** The step that completes the handshake, after any number of
    interrupted ones: the flag is cleared, the classifier is not called,
    and nothing but handshake steps has happened to the object. *)

Lemma doHandshake_completes_after_retries n s extra :
  isCorrectThread (base s) = true -> _doHandshake s = true ->
  interrupted_for n s = true -> interrupted (after_steps n s) = false ->
  0 < fst (SSL_do_handshake (_ssl (after_steps n s))) ->
  doHandshake (S n + extra) s = (Returns 1, set_doHandshake false (after_steps (S n) s))
  /\ _sslWantsTo (set_doHandshake false (after_steps (S n) s)) = _sslWantsTo s
  /\ base (set_doHandshake false (after_steps (S n) s)) = base s
  /\ forallb is_handshake (since s (set_doHandshake false (after_steps (S n) s))) = true.
Proof.
  intros Ht Hd Hint Hlast Hrc.
  destruct (after_steps_inv (S n) s) as [Hb [Hw [_ [l [Hc [Hq _]]]]]].
  split; [| split; [exact Hw | split; [exact Hb |]]].
  - rewrite doHandshake_after_retries by assumption.
    unfold handshake_outcome, bind, modify, ret.
    destruct (Z.leb_spec (fst (SSL_do_handshake (_ssl (after_steps n s)))) 0);
      [lia | reflexivity].
  - rewrite (since_appended s (set_doHandshake false (after_steps (S n) s)) l Hc).
    exact Hq.
Qed.

Ltac any_frame lemma :=
  first [apply lemma with (Q := any_call) | apply lemma];
  eauto using appended_refl, appended_trans, appended_same_calls, appended_call.

Lemma handleSslState_appends rc : stays (@appended E B any_call) (handleSslState rc).
Proof. any_frame @stays_handleSslState. Qed.

Lemma handshake_loop_appends fuel : stays (@appended E B any_call) (handshake_loop fuel).
Proof. any_frame @stays_handshake_loop. Qed.

Lemma handshake_outcome_appends rc :
  stays (@appended E B any_call) (handshake_outcome rc).
Proof.
  unfold handshake_outcome.
  assert (Hrefl : forall s, appended any_call s s) by (intros; apply appended_refl).
  assert (Htrans : forall s1 s2 s3 : @SslStreamSocket E B,
             appended any_call s1 s2 -> appended any_call s2 s3 -> appended any_call s1 s3)
    by (intros; eapply appended_trans; eassumption).
  frame; auto using handleSslState_appends, appended_same_calls.
Qed.

(** X3: [doHandshake] returns 1 or 0 and nothing else; 0 only while the
    handshake is pending, and it is then still pending. *)
Theorem doHandshake_returns_0_or_1 fuel s r s' :
  doHandshake fuel s = (Returns r, s') ->
  r = 1 \/ (r = 0 /\ _doHandshake s = true /\ _doHandshake s' = true).
Proof.
  intros Hr. destruct (isCorrectThread (base s)) eqn:Ht.
  2:{ unfold doHandshake in Hr. unfold bind at 1 in Hr.
      unfold assertCorrectThread, bind, get, assert in Hr. rewrite Ht in Hr.
      discriminate. }
  destruct (_doHandshake s) eqn:Hd.
  2:{ rewrite doHandshake_bypassed in Hr by assumption. rewrite Ht in Hr.
      inversion Hr. left. reflexivity. }
  rewrite doHandshake_pending in Hr by assumption. unfold bind in Hr.
  pose proof (handshake_loop_inv fuel s) as Hinv. cbv zeta in Hinv.
  destruct (handshake_loop fuel s) as [[rc | what | |] s1]; try discriminate.
  simpl in Hinv. destruct Hinv as [_ [_ [Hd1 _]]]. rewrite Hd in Hd1.
  unfold handshake_outcome, bind, modify, ret in Hr.
  destruct (Z.leb_spec rc 0) as [Hrc | Hrc]; [| inversion Hr; left; reflexivity].
  pose proof (handleSslState_past rc s1) as [Hsame _]. unfold same in Hsame.
  destruct (handleSslState rc s1) as [[rc' | what | |] s2] eqn:Hh; try discriminate.
  simpl in Hsame.
  apply handleSslState_result_nonpositive in Hh; [| exact Hrc].
  destruct (Z.leb_spec rc' 0); [| lia]. inversion Hr. subst s'.
  destruct (Z.eqb_spec rc' 0); [right | left; reflexivity].
  repeat split; congruence.
Qed.

(** C8 (as amended): a positive count given to the classifier resets
    want-state to Neither and is returned unchanged; so after a read or a
    write whose engine call returned a positive count want-state is
    Neither, and the interest is the base transport's own.  A handshake
    step that succeeds, also after interrupted ones, is not given to the
    classifier: [doHandshake] makes handshake calls only and leaves
    want-state as it was. *)
Theorem handleSslState_success_resets s rc :
  isCorrectThread (base s) = true -> 0 < rc ->
  handleSslState rc s = (Returns rc, set_sslWantsTo SslWantsTo.Neither s)
  /\ (forall len, fst (SSL_read len (_ssl s)) = rc ->
      fst (readData len s) = Returns rc
      /\ _sslWantsTo (snd (readData len s)) = SslWantsTo.Neither
      /\ fst (getPollEvents (snd (readData len s))) = Returns (StreamSocket_getPollEvents (base s)))
  /\ (forall len, 0 < len -> fst (SSL_write len (_ssl s)) = rc ->
      fst (writeData len s) = Returns rc
      /\ _sslWantsTo (snd (writeData len s)) = SslWantsTo.Neither
      /\ fst (getPollEvents (snd (writeData len s))) = Returns (StreamSocket_getPollEvents (base s)))
  /\ (forall n extra,
      _doHandshake s = true ->
      interrupted_for n s = true -> interrupted (after_steps n s) = false ->
      fst (SSL_do_handshake (_ssl (after_steps n s))) = rc ->
      doHandshake (S n + extra) s
      = (Returns 1, set_doHandshake false (after_steps (S n) s))
      /\ _sslWantsTo (snd (doHandshake (S n + extra) s)) = _sslWantsTo s
      /\ forallb is_handshake (since s (snd (doHandshake (S n + extra) s))) = true
      /\ fst (getPollEvents (snd (doHandshake (S n + extra) s)))
         = Returns (interest (_sslWantsTo s) (StreamSocket_getPollEvents (base s)))).
Proof.
  intros Ht Hrc. split; [apply handleSslState_positive; assumption |].
  split; [| split].
  - intros len Hr. rewrite readData_spec by assumption. rewrite Hr.
    rewrite handleSslState_positive by assumption.
    rewrite getPollEvents_spec. repeat split.
  - intros len Hlen Hr. rewrite writeData_spec by assumption. rewrite Hr.
    rewrite handleSslState_positive by assumption.
    rewrite getPollEvents_spec. repeat split.
  - intros n extra Hd Hint Hlast Hstep. rewrite <- Hstep in Hrc.
    destruct (doHandshake_completes_after_retries n s extra Ht Hd Hint Hlast Hrc)
      as [Hdh [Hw [Hb Hq]]].
    rewrite Hdh. cbn [fst snd]. split; [reflexivity |].
    split; [exact Hw |]. split; [exact Hq |].
    rewrite getPollEvents_spec. cbn [fst]. rewrite Hw, Hb. reflexivity.
Qed.

End Driver.

(** ** The two callbacks while the handshake is pending *)

Section Callbacks.

Context {E B : Type} `{Engine E} `{Transport B}.

Implicit Types s : @SslStreamSocket E B.

Lemma readIncomingData_after_handshake fuel s :
  isCorrectThread (base s) = true ->
  readIncomingData fuel s
  = bind (doHandshake fuel)
      (fun rc => if rc <=? 0 then ret (negb (rc =? 0)) else default_readIncomingData) s.
Proof.
  intros Ht. unfold readIncomingData. unfold bind at 1.
  unfold assertCorrectThread, bind at 1, get, assert. rewrite Ht. reflexivity.
Qed.

Lemma writeOutgoingData_after_handshake fuel s :
  isCorrectThread (base s) = true ->
  writeOutgoingData fuel s
  = bind (doHandshake fuel)
      (fun rc => if rc <=? 0 then ret tt else default_writeOutgoingData) s.
Proof.
  intros Ht. unfold writeOutgoingData. unfold bind at 1.
  unfold assertCorrectThread, bind at 1, get, assert. rewrite Ht. reflexivity.
Qed.

Lemma after_steps_pending n s :
  _doHandshake s = true ->
  forall rc, _doHandshake (snd (handleSslState rc (after_steps n s))) = true.
Proof.
  intros Hd rc. pose proof (handleSslState_past rc (after_steps n s)) as [Hs _].
  unfold same in Hs. rewrite Hs.
  destruct (after_steps_inv n s) as [_ [_ [Hk _]]]. rewrite Hk. exact Hd.
Qed.

(** X4: the peer closes during the handshake: when the classifier turns the
    result of the step, reached after any number of interrupted ones,
    into 0, the read callback reports the socket closed, the write
    callback returns, neither runs the default implementation, and the
    handshake stays pending. *)
Theorem handshake_closed_ends_callbacks n s extra :
  isCorrectThread (base s) = true -> _doHandshake s = true ->
  interrupted_for n s = true -> interrupted (after_steps n s) = false ->
  let rc := fst (SSL_do_handshake (_ssl (after_steps n s))) in
  let s2 := snd (handleSslState rc (after_steps (S n) s)) in
  rc <= 0 -> fst (handleSslState rc (after_steps (S n) s)) = Returns 0 ->
  readIncomingData (S n + extra) s = (Returns false, s2)
  /\ writeOutgoingData (S n + extra) s = (Returns tt, s2)
  /\ _doHandshake s2 = true.
Proof.
  intros Ht Hd Hint Hlast rc s2 Hrc Hc.
  assert (Hdh : doHandshake (S n + extra) s = (Returns 0, s2)).
  { rewrite doHandshake_after_retries by assumption. fold rc.
    unfold handshake_outcome, bind. destruct (Z.leb_spec rc 0); [| lia].
    subst s2. destruct (handleSslState rc (after_steps (S n) s)) as [o s3].
    simpl in Hc. subst o. reflexivity. }
  split; [| split].
  - rewrite readIncomingData_after_handshake by assumption.
    unfold bind. rewrite Hdh. reflexivity.
  - rewrite writeOutgoingData_after_handshake by assumption.
    unfold bind. rewrite Hdh. reflexivity.
  - apply after_steps_pending. exact Hd.
Qed.

(** X5: a fatal handshake step, reached after any number of interrupted
    ones: what the classifier throws leaves through both callbacks, the
    default implementation is not run, and the handshake stays pending. *)
Theorem handshake_fault_leaves_callbacks n s extra what :
  isCorrectThread (base s) = true -> _doHandshake s = true ->
  interrupted_for n s = true -> interrupted (after_steps n s) = false ->
  let rc := fst (SSL_do_handshake (_ssl (after_steps n s))) in
  let s2 := snd (handleSslState rc (after_steps (S n) s)) in
  rc <= 0 -> fst (handleSslState rc (after_steps (S n) s)) = Throws what ->
  readIncomingData (S n + extra) s = (Throws what, s2)
  /\ writeOutgoingData (S n + extra) s = (Throws what, s2)
  /\ _doHandshake s2 = true.
Proof.
  intros Ht Hd Hint Hlast rc s2 Hrc Hc.
  assert (Hdh : doHandshake (S n + extra) s = (Throws what, s2)).
  { rewrite doHandshake_after_retries by assumption. fold rc.
    unfold handshake_outcome, bind. destruct (Z.leb_spec rc 0); [| lia].
    subst s2. destruct (handleSslState rc (after_steps (S n) s)) as [o s3].
    simpl in Hc. subst o. reflexivity. }
  split; [| split].
  - rewrite readIncomingData_after_handshake by assumption.
    unfold bind. rewrite Hdh. reflexivity.
  - rewrite writeOutgoingData_after_handshake by assumption.
    unfold bind. rewrite Hdh. reflexivity.
  - apply after_steps_pending. exact Hd.
Qed.

(** X6: the step that completes the handshake, reached after any number of
    interrupted ones: the flag is cleared, nothing else in the object
    changes, not even want-state, the classifier is not called, and the
    callback goes on to the default implementation in the same call. *)
Theorem handshake_success_continues n s extra :
  isCorrectThread (base s) = true -> _doHandshake s = true ->
  interrupted_for n s = true -> interrupted (after_steps n s) = false ->
  0 < fst (SSL_do_handshake (_ssl (after_steps n s))) ->
  let s1 := set_doHandshake false (after_steps (S n) s) in
  doHandshake (S n + extra) s = (Returns 1, s1)
  /\ _sslWantsTo s1 = _sslWantsTo s
  /\ base s1 = base s
  /\ forallb is_handshake (since s s1) = true
  /\ readIncomingData (S n + extra) s = default_readIncomingData s1
  /\ writeOutgoingData (S n + extra) s = default_writeOutgoingData s1.
Proof.
  intros Ht Hd Hint Hlast Hrc s1.
  destruct (doHandshake_completes_after_retries n s extra Ht Hd Hint Hlast Hrc)
    as [Hdh [Hw [Hb Hq]]].
  split; [exact Hdh |]. split; [exact Hw |]. split; [exact Hb |].
  split; [exact Hq |]. split.
  - rewrite readIncomingData_after_handshake by assumption.
    unfold bind. rewrite Hdh. reflexivity.
  - rewrite writeOutgoingData_after_handshake by assumption.
    unfold bind. rewrite Hdh. reflexivity.
Qed.

(** X7: a suspended step on the write side, reached after any number of
    interrupted ones: the classifier passes the negative code through,
    [doHandshake] returns 1 with the handshake still pending, and
    [writeOutgoingData] runs the default implementation on the object
    the classifier left. *)
Theorem writeOutgoingData_suspended n s extra :
  isCorrectThread (base s) = true -> _doHandshake s = true ->
  interrupted_for n s = true -> interrupted (after_steps n s) = false ->
  let rc := fst (SSL_do_handshake (_ssl (after_steps n s))) in
  let s2 := snd (handleSslState rc (after_steps (S n) s)) in
  rc < 0 -> fst (handleSslState rc (after_steps (S n) s)) = Returns rc ->
  doHandshake (S n + extra) s = (Returns 1, s2)
  /\ _doHandshake s2 = true
  /\ writeOutgoingData (S n + extra) s = default_writeOutgoingData s2.
Proof.
  intros Ht Hd Hint Hlast rc s2 Hrc Hc.
  assert (Hdh : doHandshake (S n + extra) s = (Returns 1, s2)).
  { rewrite doHandshake_after_retries by assumption. fold rc.
    unfold handshake_outcome, bind, ret. destruct (Z.leb_spec rc 0); [| lia].
    subst s2. destruct (handleSslState rc (after_steps (S n) s)) as [o s3].
    simpl in Hc. subst o. simpl.
    destruct (Z.leb_spec rc 0); [| lia].
    destruct (Z.eqb_spec rc 0); [lia | reflexivity]. }
  split; [exact Hdh |]. split.
  - apply after_steps_pending. exact Hd.
  - rewrite writeOutgoingData_after_handshake by assumption.
    unfold bind. rewrite Hdh. reflexivity.
Qed.

Lemma after_bind {A C} (R : @SslStreamSocket E B -> @SslStreamSocket E B -> Prop)
    (m : @M E B A) (k : A -> @M E B C) s :
  (forall s0, R s0 s0) -> (forall a, stays R (k a)) ->
  R (snd (m s)) (snd (bind m k s)).
Proof.
  intros Hrefl Hk. unfold bind.
  destruct (m s) as [[a | what | |] s1]; simpl; try apply Hrefl. apply Hk.
Qed.

Lemma doHandshake_after_first_step fuel s :
  isCorrectThread (base s) = true -> _doHandshake s = true ->
  appended any_call (handshake_step s) (snd (doHandshake (S fuel) s)).
Proof.
  intros Ht Hd. rewrite doHandshake_pending by assumption.
  unfold bind. rewrite handshake_loop_next.
  destruct (interrupted s).
  - change (appended any_call (handshake_step s)
              (snd (bind (handshake_loop fuel) handshake_outcome (handshake_step s)))).
    eapply appended_trans.
    + apply handshake_loop_appends.
    + apply after_bind; [apply appended_refl | apply handshake_outcome_appends].
  - apply handshake_outcome_appends.
Qed.

Lemma since_first_step s s' :
  appended any_call (handshake_step s) s' ->
  hd_error (since s s') = Some (Call_SSL_do_handshake (fst (SSL_do_handshake (_ssl s)))).
Proof.
  intros [l [Hc _]].
  rewrite (since_appended s s'
             (Call_SSL_do_handshake (fst (SSL_do_handshake (_ssl s))) :: l)).
  - reflexivity.
  - rewrite Hc. simpl. rewrite <- app_assoc. reflexivity.
Qed.

(** X8: while the handshake is pending, the first engine call of either
    callback is a handshake step: no read or write reaches the engine
    before one. *)
Theorem pending_callbacks_start_with_handshake fuel s :
  isCorrectThread (base s) = true -> _doHandshake s = true ->
  let first := Some (Call_SSL_do_handshake (fst (SSL_do_handshake (_ssl s)))) in
  hd_error (since s (snd (readIncomingData (S fuel) s))) = first
  /\ hd_error (since s (snd (writeOutgoingData (S fuel) s))) = first.
Proof.
  intros Ht Hd first. subst first.
  pose proof (doHandshake_after_first_step fuel s Ht Hd) as Hfirst.
  assert (Hrefl : forall s0 : @SslStreamSocket E B, appended any_call s0 s0)
    by (intros; apply appended_refl).
  assert (Htrans : forall s1 s2 s3 : @SslStreamSocket E B,
             appended any_call s1 s2 -> appended any_call s2 s3 -> appended any_call s1 s3)
    by (intros; eapply appended_trans; eassumption).
  split; apply since_first_step.
  - rewrite readIncomingData_after_handshake by assumption.
    eapply appended_trans; [exact Hfirst |].
    apply after_bind; [exact Hrefl |]. intros rc.
    pose proof (@stays_default_readIncomingData E B _ _ any_call (appended any_call)) as Hdef.
    frame. apply Hdef;
      eauto using appended_same_calls, appended_call.
  - rewrite writeOutgoingData_after_handshake by assumption.
    eapply appended_trans; [exact Hfirst |].
    apply after_bind; [exact Hrefl |]. intros rc.
    pose proof (@stays_default_writeOutgoingData E B _ _ any_call (appended any_call)) as Hdef.
    frame. apply Hdef;
      eauto using appended_same_calls, appended_call.
Qed.

(** X9: off the owner thread every member function that asserts the thread
    aborts with the object untouched and no engine call made; [shutdown]
    and [getPollEvents] carry no such assertion and return as usual. *)
Theorem off_thread_aborts fuel op s :
  isCorrectThread (base s) = false ->
  (checks_thread op = true -> run fuel op s = (Aborts, s))
  /\ (checks_thread op = false -> fst (run fuel op s) = Returns tt).
Proof.
  intros Ht. split; intros Hop; destruct op; try discriminate Hop; simpl.
  - unfold void, readIncomingData, assertCorrectThread, bind, get, assert.
    rewrite Ht. reflexivity.
  - unfold writeOutgoingData, assertCorrectThread, bind, get, assert.
    rewrite Ht. reflexivity.
  - unfold void, readData, assertCorrectThread, bind, get, assert.
    rewrite Ht. reflexivity.
  - unfold void, writeData, assertCorrectThread, bind, get, assert.
    rewrite Ht. reflexivity.
  - unfold void, doHandshake, assertCorrectThread, bind, get, assert.
    rewrite Ht. reflexivity.
  - unfold void. unfold bind. rewrite handleSslState_wrong_thread by assumption.
    reflexivity.
  - rewrite shutdown_spec. reflexivity.
  - unfold void. unfold bind. rewrite getPollEvents_spec. reflexivity.
Qed.

End Callbacks.

(** ** The classifier and the data calls, continued *)

Section DataCalls.

Context {E B : Type} `{Engine E} `{Transport B}.

Implicit Types s : @SslStreamSocket E B.

Lemma classify_error_calls s rc :
  exists l, calls (snd (classify_error rc s)) = calls s ++ l
            /\ forallb classifier_call l = true /\ (List.length l <= 2)%nat.
Proof.
  unfold classify_error. step_monad.
  repeat (match goal with |- context [if ?b then _ else _] => destruct b end; simpl);
    try (destruct (ERR_get_error (_ssl s)) as [bioError e']; simpl;
         repeat (match goal with |- context [if ?b then _ else _] => destruct b end;
                 simpl));
    first [ solve [eexists [_]; repeat split; simpl; auto]
          | solve [eexists [_; _]; rewrite <- app_assoc; repeat split; simpl; auto] ].
Qed.

(** X10: the classifier touches nothing but want-state and the engine: the
    base subobject and the handshake flag are as they were; its engine
    calls are at most [SSL_get_error] followed by [ERR_get_error]; what
    it returns is the code it was given or 0; and it never spins. *)
Theorem handleSslState_is_contained s rc :
  let r := handleSslState rc s in
  base (snd r) = base s /\ _doHandshake (snd r) = _doHandshake s
  /\ forallb classifier_call (since s (snd r)) = true
  /\ (List.length (since s (snd r)) <= 2)%nat
  /\ (forall v, fst r = Returns v -> v = rc \/ v = 0)
  /\ fst r <> Spins.
Proof.
  cbv zeta. destruct (isCorrectThread (base s)) eqn:Ht.
  2:{ rewrite handleSslState_wrong_thread by assumption. simpl.
      rewrite (since_appended s s []) by (rewrite app_nil_r; reflexivity).
      repeat split; simpl; try lia; discriminate. }
  destruct (Z.gtb_spec rc 0) as [Hpos | Hnp].
  - rewrite handleSslState_positive by (assumption || lia). simpl.
    rewrite (since_appended s (set_sslWantsTo SslWantsTo.Neither s) [])
      by (rewrite app_nil_r; reflexivity).
    repeat split; simpl; try lia; try discriminate.
    intros v Hv. inversion Hv. left. reflexivity.
  - rewrite handleSslState_nonpositive by assumption.
    destruct (classify_error_calls s rc) as [l [Hc [Hq Hlen]]].
    rewrite (since_appended _ _ l Hc).
    pose proof (handleSslState_past rc s) as [Hd _]. unfold same in Hd.
    rewrite handleSslState_nonpositive in Hd by assumption.
    pose proof (stays_handleSslState (fun _ => true) (same base)) as Hb.
    assert (Hbase : base (snd (handleSslState rc s)) = base s).
    { apply Hb; unfold same; simpl; intros; congruence. }
    rewrite handleSslState_nonpositive in Hbase by assumption.
    repeat split; try assumption.
    + intros v Hv. destruct (classify_error rc s) as [o s'] eqn:Hcl.
      simpl in Hv. subst o. apply classify_result in Hcl. exact Hcl.
    + intros Hs. destruct (classify_error rc s) as [o s'] eqn:Hcl. simpl in Hs. subst o.
      revert Hcl. unfold classify_error. step_monad.
      repeat (match goal with |- context [if ?b then _ else _] => destruct b end; simpl);
        try (destruct (ERR_get_error (_ssl s)) as [bioError e']; simpl;
             repeat (match goal with |- context [if ?b then _ else _] => destruct b end;
                     simpl));
        discriminate.
Qed.

(** X11: clean termination on a read: whatever non-positive code [SSL_read]
    gave, [readData] returns 0; nothing is thrown, the diagnostic queue is
    not asked and want-state is not touched. *)
Theorem readData_clean_close s len :
  isCorrectThread (base s) = true ->
  let rc := fst (SSL_read len (_ssl s)) in
  let s1 := engine_step (snd (SSL_read len (_ssl s))) (Call_SSL_read len rc) s in
  rc <= 0 -> SSL_get_error rc (_ssl s1) = SSL_ERROR_ZERO_RETURN ->
  readData len s = (Returns 0, classified rc s1)
  /\ _sslWantsTo (classified rc s1) = _sslWantsTo s
  /\ since s (classified rc s1)
     = [Call_SSL_read len rc; Call_SSL_get_error rc SSL_ERROR_ZERO_RETURN].
Proof.
  intros Ht rc s1 Hrc He. split; [| split].
  - rewrite readData_spec by assumption. fold rc s1.
    rewrite handleSslState_nonpositive by assumption.
    apply classify_zero_return. exact He.
  - reflexivity.
  - apply since_appended. unfold classified. rewrite He. simpl.
    rewrite <- app_assoc. reflexivity.
Qed.

(** X12: the remaining fatal case: in the default block with an empty
    diagnostic queue and a code below -1, the classifier throws a message
    that spells the code out in decimal. *)
Theorem handleSslState_reports_bio_code s rc :
  isCorrectThread (base s) = true -> rc < -1 ->
  reaches_default (SSL_get_error rc (_ssl s)) (errno (_ssl s)) = true ->
  fst (ERR_get_error (_ssl s)) = 0 ->
  fst (handleSslState rc s)
  = Throws ("SSL BIO reported error [" ++ to_string rc ++ "].")%string
  /\ _sslWantsTo (snd (handleSslState rc s)) = _sslWantsTo s.
Proof.
  intros Ht Hrc Hd Hq.
  rewrite handleSslState_nonpositive by (assumption || lia).
  rewrite classify_default by assumption.
  destruct (ERR_get_error (_ssl s)) as [bioError e']. simpl in Hq. subst bioError.
  change (0 =? 0) with true. cbv iota.
  destruct (Z.eqb_spec rc 0); [lia |]. destruct (Z.eqb_spec rc (-1)); [lia |].
  split; reflexivity.
Qed.

Lemma handleSslState_classifier_calls rc :
  stays (@appended E B classifier_call) (handleSslState rc).
Proof.
  apply stays_handleSslState with (Q := classifier_call);
    eauto using appended_refl, appended_trans, appended_same_calls, appended_call.
Qed.

Lemma handleSslState_result s rc v s' :
  handleSslState rc s = (Returns v, s') -> v = rc \/ v = 0.
Proof.
  intros Hr. destruct (isCorrectThread (base s)) eqn:Ht.
  - destruct (Z.gtb_spec rc 0) as [Hpos | Hnp].
    + rewrite handleSslState_positive in Hr by (assumption || lia).
      inversion Hr. left. reflexivity.
    + rewrite handleSslState_nonpositive in Hr by assumption.
      apply classify_result in Hr. exact Hr.
  - rewrite handleSslState_wrong_thread in Hr by assumption. discriminate.
Qed.

(** X13: what [readData] and [writeData] return is the count the engine
    reported, or 0; each makes exactly one [SSL_read] or [SSL_write]
    call, with the caller's length, before the classifier's own calls;
    and [writeData] returns only for a positive length. *)
Theorem data_calls_return_engine_count s len r s' :
  isCorrectThread (base s) = true ->
  (readData len s = (Returns r, s') ->
   (r = fst (SSL_read len (_ssl s)) \/ r = 0)
   /\ exists l, since s s' = Call_SSL_read len (fst (SSL_read len (_ssl s))) :: l
                /\ forallb classifier_call l = true)
  /\ (writeData len s = (Returns r, s') ->
      0 < len /\ (r = fst (SSL_write len (_ssl s)) \/ r = 0)
      /\ exists l, since s s' = Call_SSL_write len (fst (SSL_write len (_ssl s))) :: l
                   /\ forallb classifier_call l = true).
Proof.
  intros Ht. split.
  - rewrite readData_spec by assumption. intros Hr.
    split; [eapply handleSslState_result; exact Hr |].
    pose proof (handleSslState_classifier_calls (fst (SSL_read len (_ssl s)))
                  (engine_step (snd (SSL_read len (_ssl s)))
                     (Call_SSL_read len (fst (SSL_read len (_ssl s)))) s)) as [l [Hc Hq]].
    rewrite Hr in Hc. simpl in Hc. exists l. split; [| exact Hq].
    apply since_appended. rewrite Hc, <- app_assoc. reflexivity.
  - intros Hw. destruct (Z.ltb_spec 0 len) as [Hlen | Hlen].
    + split; [exact Hlen |]. rewrite writeData_spec in Hw by assumption.
      split; [eapply handleSslState_result; exact Hw |].
      pose proof (handleSslState_classifier_calls (fst (SSL_write len (_ssl s)))
                    (engine_step (snd (SSL_write len (_ssl s)))
                       (Call_SSL_write len (fst (SSL_write len (_ssl s)))) s))
        as [l [Hc Hq]].
      rewrite Hw in Hc. simpl in Hc. exists l. split; [| exact Hq].
      apply since_appended. rewrite Hc, <- app_assoc. reflexivity.
    + exfalso. revert Hw. unfold writeData, assertCorrectThread, bind, get, assert.
      rewrite Ht. destruct (Z.gtb_spec len 0); [lia | discriminate].
Qed.

End DataCalls.

(** ** Construction and destruction *)

Section Lifecycle.

Context {E B L : Type} `{Engine E} `{Transport B} `{Library E L}.

(** X14: the constructor throws exactly when an allocation fails, naming
    which: [BIO_new] null, or [SslContext::newSsl()] null, in which case
    the BIO it obtained is freed; otherwise it hands that BIO to the
    engine and returns.  It never keeps a BIO it cannot use.  An object
    it returns has the handshake pending, want-state Neither, and so the
    base transport's interest. *)
Theorem ctor_releases_bio_on_failure (fd : Z) (b : B) (l : L) :
  let r := SslStreamSocket_ctor fd b l in
  let l1 := snd (BIO_new l) in
  bios_held (snd r) = 0
  /\ match fst (BIO_new l) with
     | None => r = (Throws "Failed to create SSL BIO."%string, l1, [Call_BIO_new None])
     | Some bio =>
         let l2 := BIO_set_fd bio fd BIO_NOCLOSE l1 in
         match fst (SslContext_newSsl l2) with
         | None =>
             r = (Throws "Failed to create SSL."%string,
                  BIO_free bio (snd (SslContext_newSsl l2)),
                  [Call_BIO_new (Some bio); Call_BIO_set_fd bio fd BIO_NOCLOSE;
                   Call_newSsl false; Call_BIO_free bio])
         | Some e =>
             r = (Returns (constructed b (SSL_set_accept_state (SSL_set_bio bio bio e))),
                  snd (SslContext_newSsl l2),
                  [Call_BIO_new (Some bio); Call_BIO_set_fd bio fd BIO_NOCLOSE;
                   Call_newSsl true; Call_SSL_set_bio bio bio; Call_SSL_set_accept_state])
         end
     end
  /\ ((exists s, fst (fst r) = Returns s) <->
      exists bio e,
        fst (BIO_new l) = Some bio
        /\ fst (SslContext_newSsl (BIO_set_fd bio fd BIO_NOCLOSE l1)) = Some e)
  /\ (fst (fst r) = Throws "Failed to create SSL BIO."%string <-> fst (BIO_new l) = None)
  /\ (fst (fst r) = Throws "Failed to create SSL."%string <->
      exists bio,
        fst (BIO_new l) = Some bio
        /\ fst (SslContext_newSsl (BIO_set_fd bio fd BIO_NOCLOSE l1)) = None)
  /\ match fst (fst r) with
     | Returns s =>
         base s = b /\ _doHandshake s = true /\ _sslWantsTo s = SslWantsTo.Neither
         /\ calls s = []
         /\ fst (getPollEvents s) = Returns (StreamSocket_getPollEvents b)
         /\ exists bio, fst (BIO_new l) = Some bio
                        /\ In (Call_SSL_set_bio bio bio) (snd r)
                        /\ ~ In (Call_BIO_free bio) (snd r)
     | Throws what =>
         (what = "Failed to create SSL BIO."%string /\ fst (BIO_new l) = None
          /\ snd r = [Call_BIO_new None])
         \/ (what = "Failed to create SSL."%string
             /\ exists bio, fst (BIO_new l) = Some bio
                            /\ last (snd r) Call_SSL_free = Call_BIO_free bio)
     | _ => False
     end.
Proof.
  cbv zeta. unfold SslStreamSocket_ctor.
  destruct (BIO_new l) as [[bio |] l1]; cbn [fst snd].
  - destruct (SslContext_newSsl (BIO_set_fd bio fd BIO_NOCLOSE l1)) as [[e |] l3] eqn:Hssl;
      cbn [fst snd].
    + split; [reflexivity |]. split; [reflexivity |]. split; [| split; [| split]].
      * split; [intros _; exists bio, e; rewrite Hssl; split; reflexivity
               | intros _; eexists; reflexivity].
      * split; discriminate.
      * split; [discriminate |].
        intros [bio' [Hb Hn]]. injection Hb as <-. rewrite Hssl in Hn. discriminate Hn.
      * repeat split. exists bio. repeat split.
        -- right. right. right. left. reflexivity.
        -- intros Hin. repeat (destruct Hin as [Hin | Hin]; [discriminate Hin |]).
           exact Hin.
    + split; [reflexivity |]. split; [reflexivity |]. split; [| split; [| split]].
      * split; [intros [s0 Hs0]; discriminate Hs0 |].
        intros [bio' [e' [Hb He]]]. injection Hb as <-. rewrite Hssl in He.
        discriminate He.
      * split; discriminate.
      * split; [intros _; exists bio; rewrite Hssl; split; reflexivity | reflexivity].
      * right. split; [reflexivity |]. exists bio. split; reflexivity.
  - split; [reflexivity |]. split; [reflexivity |]. split; [| split; [| split]].
    + split; [intros [s0 Hs0]; discriminate Hs0 | intros [bio' [e' [Hb _]]]; discriminate Hb].
    + split; reflexivity.
    + split; [discriminate | intros [bio' [Hb _]]; discriminate Hb].
    + left. repeat split.
Qed.

Lemma shutdown_keeps_fields (s : @SslStreamSocket E B) :
  base (snd (shutdown s)) = base s
  /\ _sslWantsTo (snd (shutdown s)) = _sslWantsTo s
  /\ _doHandshake (snd (shutdown s)) = _doHandshake s.
Proof.
  rewrite shutdown_spec. simpl.
  destruct (SSL_shutdown (_ssl s)) as [rc1 e1]. simpl.
  destruct (rc1 =? 0); [| repeat split].
  destruct (SSL_shutdown e1) as [rc2 e2]. repeat split.
Qed.

(** X15: the destructor cannot throw or abort, on any thread and in any
    handshake state: it makes one or two close-notify attempts and no
    other engine call, leaves the fields of the object alone, and then
    frees the engine handle once. *)
Theorem dtor_always_returns (s : @SslStreamSocket E B) (l : L) :
  let r := SslStreamSocket_dtor s l in
  let s' := snd (fst (fst r)) in
  fst (fst (fst r)) = Returns tt
  /\ s' = snd (shutdown s)
  /\ snd r = [Call_SSL_free]
  /\ snd (fst r) = SSL_free (_ssl s') l
  /\ (1 <= attempts s s' <= 2)%nat
  /\ List.length (since s s') = attempts s s'
  /\ base s' = base s /\ _sslWantsTo s' = _sslWantsTo s
  /\ _doHandshake s' = _doHandshake s.
Proof.
  cbv zeta. unfold SslStreamSocket_dtor.
  pose proof (shutdown_calls s) as Hcalls.
  pose proof (shutdown_keeps_fields s) as [Hbase [Hwants Hdone]].
  pose proof (shutdown_spec s) as Hspec.
  destruct (shutdown s) as [o s'].
  injection Hspec as Ho _. subst o. cbn [fst snd] in *.
  unfold attempts. rewrite Hcalls.
  repeat split; try assumption;
    destruct (fst (SSL_shutdown (_ssl s)) =? 0); simpl; lia.
Qed.

End Lifecycle.

(** ** Concrete runs of the rest of the class *)

(** No engine handle to be had: the BIO that was allocated is freed
    again.  And a whole life: constructed, never used, destroyed. *)

Example ctor_without_ssl_frees_bio :
  let r := SslStreamSocket_ctor 7 idle (mkPool 1 0 100 [] 0) in
  fst (fst r) = Throws "Failed to create SSL."%string
  /\ live_bios (snd (fst r)) = []
  /\ snd r = [Call_BIO_new (Some 100); Call_BIO_set_fd 100 7 BIO_NOCLOSE;
              Call_newSsl false; Call_BIO_free 100].
Proof. repeat split. Qed.

Example construct_then_destroy :
  let r := SslStreamSocket_ctor 7 idle (mkPool 1 1 100 [] 0) in
  fst (fst r) = Returns (constructed idle quiet)
  /\ let d := SslStreamSocket_dtor (constructed idle quiet) (snd (fst r)) in
     fst (fst (fst d)) = Returns tt
     /\ ssl_freed (snd (fst d)) = 1%nat
     /\ calls (snd (fst (fst d))) = [Call_SSL_shutdown 0; Call_SSL_shutdown 0].
Proof. repeat split. Qed.

Lemma handshake_loop_retries_interrupts_witness :
  interrupted_for 2 interrupted_twice = true
  /\ interrupted (after_steps 2 interrupted_twice) = false
  /\ handshake_loop 3 interrupted_twice = (Returns 1, after_steps 3 interrupted_twice).
Proof.
  split; [reflexivity |]. split; [reflexivity |].
  pose proof (handshake_loop_retries_interrupts 2 interrupted_twice 0) as Hw.
  exact (Hw eq_refl eq_refl).
Defined.

Lemma handshake_loop_surfaces_no_interrupt_witness :
  handshake_loop 5 interrupted_twice = (Returns 1, after_steps 3 interrupted_twice)
  /\ (1 <? 0) && (errno (_ssl (after_steps 3 interrupted_twice)) =? EINTR) = false.
Proof.
  split; [reflexivity |].
  pose proof (handshake_loop_surfaces_no_interrupt 5 interrupted_twice 1
                (after_steps 3 interrupted_twice)) as Hw.
  exact (proj1 (Hw eq_refl)).
Defined.

Lemma doHandshake_returns_0_or_1_witness :
  doHandshake 1 closing_handshake = (Returns 0, snd (doHandshake 1 closing_handshake))
  /\ (0 = 1 \/ (0 = 0 /\ _doHandshake closing_handshake = true
                /\ _doHandshake (snd (doHandshake 1 closing_handshake)) = true)).
Proof.
  split; [reflexivity |].
  exact (@doHandshake_returns_0_or_1 _ _ Scripted_Engine Buffered_Transport
           1 closing_handshake 0 (snd (doHandshake 1 closing_handshake)) eq_refl).
Defined.

Lemma handshake_closed_ends_callbacks_witness :
  interrupted closing_after_signal = true
  /\ fst (readIncomingData 2 closing_after_signal) = Returns false
  /\ fst (writeOutgoingData 2 closing_after_signal) = Returns tt
  /\ fst (readIncomingData 1 closing_handshake) = Returns false.
Proof.
  assert (Hzero : 0 <= 0) by lia.
  pose proof (handshake_closed_ends_callbacks 1 closing_after_signal 0) as Hw.
  specialize (Hw eq_refl eq_refl eq_refl eq_refl Hzero eq_refl).
  pose proof (handshake_closed_ends_callbacks 0 closing_handshake 0) as Hv.
  specialize (Hv eq_refl eq_refl eq_refl eq_refl Hzero eq_refl).
  destruct Hw as [Hr [Hwr _]]. destruct Hv as [Hr0 _].
  split; [reflexivity |]. split; [exact (f_equal fst Hr) |].
  split; [exact (f_equal fst Hwr) | exact (f_equal fst Hr0)].
Defined.

Lemma handshake_fault_leaves_callbacks_witness :
  interrupted failing_after_signal = true
  /\ fst (readIncomingData 2 failing_after_signal)
     = Throws (substring 0 511 (describe bad_record))
  /\ fst (writeOutgoingData 2 failing_after_signal)
     = Throws (substring 0 511 (describe bad_record))
  /\ _doHandshake (snd (readIncomingData 2 failing_after_signal)) = true.
Proof.
  assert (Hneg : -1 <= 0) by lia.
  pose proof (handshake_fault_leaves_callbacks 1 failing_after_signal 0
                (substring 0 511 (describe bad_record))) as Hw.
  specialize (Hw eq_refl eq_refl eq_refl eq_refl Hneg eq_refl).
  destruct Hw as [Hr [Hwr Hd]].
  split; [reflexivity |]. split; [exact (f_equal fst Hr) |].
  split; [exact (f_equal fst Hwr) | exact Hd].
Defined.

Lemma handshake_success_continues_witness :
  _sslWantsTo last_flight_after_signals = SslWantsTo.Read
  /\ interrupted_for 2 last_flight_after_signals = true
  /\ fst (doHandshake 3 last_flight_after_signals) = Returns 1
  /\ _doHandshake (snd (doHandshake 3 last_flight_after_signals)) = false
  /\ _sslWantsTo (snd (doHandshake 3 last_flight_after_signals)) = SslWantsTo.Read.
Proof.
  assert (Hpos : 0 < 1) by lia.
  pose proof (handshake_success_continues 2 last_flight_after_signals 0) as Hw.
  specialize (Hw eq_refl eq_refl eq_refl eq_refl Hpos).
  cbv zeta in Hw. destruct Hw as [Hdh [Hwants _]].
  split; [reflexivity |]. split; [reflexivity |].
  split; [exact (f_equal fst Hdh) |].
  split; [exact (f_equal (fun r => _doHandshake (snd r)) Hdh) | exact Hwants].
Defined.

Lemma writeOutgoingData_suspended_witness :
  interrupted flushing_after_signal = true
  /\ fst (doHandshake 2 flushing_after_signal) = Returns 1
  /\ _doHandshake (snd (doHandshake 2 flushing_after_signal)) = true
  /\ existsb (fun c => match c with Call_SSL_write _ _ => true | _ => false end)
       (calls (snd (writeOutgoingData 2 flushing_after_signal))) = true.
Proof.
  assert (Hneg : -1 < 0) by lia.
  pose proof (writeOutgoingData_suspended 1 flushing_after_signal 0) as Hw.
  specialize (Hw eq_refl eq_refl eq_refl eq_refl Hneg eq_refl).
  destruct Hw as [Hdh [Hd Hwr]].
  split; [reflexivity |]. split; [exact (f_equal fst Hdh) |].
  split; [exact Hd |].
  exact (f_equal (fun r => existsb
                   (fun c => match c with Call_SSL_write _ _ => true | _ => false end)
                   (calls (snd r))) Hwr).
Defined.

Lemma handleSslState_success_resets_witness :
  _sslWantsTo established = SslWantsTo.Write
  /\ fst (readData block established) = Returns 42
  /\ _sslWantsTo (snd (readData block established)) = SslWantsTo.Neither
  /\ fst (getPollEvents (snd (readData block established)))
     = Returns (Z.lor POLLIN POLLOUT)
  /\ doHandshake 3 last_flight_after_signals
     = (Returns 1, set_doHandshake false (after_steps 3 last_flight_after_signals))
  /\ _sslWantsTo (snd (doHandshake 3 last_flight_after_signals)) = SslWantsTo.Read
  /\ fst (getPollEvents (snd (doHandshake 3 last_flight_after_signals))) = Returns POLLIN.
Proof.
  assert (Hmany : 0 < 42) by lia.
  assert (Hone : 0 < 1) by lia.
  pose proof (handleSslState_success_resets established 42) as Hdata.
  pose proof (handleSslState_success_resets last_flight_after_signals 1) as Hstep.
  specialize (Hdata eq_refl Hmany). specialize (Hstep eq_refl Hone).
  destruct Hdata as [_ [Hread _]]. destruct Hstep as [_ [_ [_ Hstep]]].
  specialize (Hread block eq_refl).
  specialize (Hstep 2%nat 0%nat eq_refl eq_refl eq_refl eq_refl).
  destruct Hread as [Hr [Hn Hp]]. destruct Hstep as [Hdh [Hw [_ Hpoll]]].
  split; [reflexivity |]. split; [exact Hr |]. split; [exact Hn |].
  split; [exact Hp |]. split; [exact Hdh |]. split; [exact Hw | exact Hpoll].
Defined.

(** C7 as stated fails for two calls in succession: the peer never
    completes the close, each [shutdown] makes its two attempts, and the
    second call issues a third and a fourth. *)
Lemma second_shutdown_starts_over :
  let s := unresponsive_peer in
  let s'' := snd (shutdown (snd (shutdown s))) in
  since s s'' = [Call_SSL_shutdown 0; Call_SSL_shutdown 0;
                 Call_SSL_shutdown 0; Call_SSL_shutdown 0]
  /\ attempts s s'' = 4%nat
  /\ nth_error (since s s'') 2 = Some (Call_SSL_shutdown 0)
  /\ ~ (attempts s s'' <= 2)%nat.
Proof.
  cbv zeta. split; [reflexivity |]. split; [reflexivity |]. split; [reflexivity |].
  change (attempts unresponsive_peer (snd (shutdown (snd (shutdown unresponsive_peer)))))
    with 4%nat. lia.
Qed.

Lemma pending_callbacks_start_with_handshake_witness :
  hd_error (since awaiting_client_hello (snd (readIncomingData 1 awaiting_client_hello)))
  = Some (Call_SSL_do_handshake (-1))
  /\ hd_error (since flushing_handshake (snd (writeOutgoingData 1 flushing_handshake)))
     = Some (Call_SSL_do_handshake (-1)).
Proof.
  split.
  - exact (proj1 (@pending_callbacks_start_with_handshake _ _ Scripted_Engine
                    Buffered_Transport 0 awaiting_client_hello eq_refl eq_refl)).
  - exact (proj2 (@pending_callbacks_start_with_handshake _ _ Scripted_Engine
                    Buffered_Transport 0 flushing_handshake eq_refl eq_refl)).
Defined.

Lemma off_thread_aborts_witness :
  isCorrectThread (base off_thread) = false
  /\ run 1 Op_writeOutgoingData off_thread = (Aborts, off_thread)
  /\ run 1 (Op_readData block) off_thread = (Aborts, off_thread)
  /\ fst (run 1 Op_shutdown off_thread) = Returns tt.
Proof.
  split; [reflexivity |]. split; [| split].
  - exact (proj1 (@off_thread_aborts _ _ Scripted_Engine Buffered_Transport
                    1 Op_writeOutgoingData off_thread eq_refl) eq_refl).
  - exact (proj1 (@off_thread_aborts _ _ Scripted_Engine Buffered_Transport
                    1 (Op_readData block) off_thread eq_refl) eq_refl).
  - exact (proj2 (@off_thread_aborts _ _ Scripted_Engine Buffered_Transport
                    1 Op_shutdown off_thread eq_refl) eq_refl).
Defined.

Lemma handleSslState_is_contained_witness :
  base (snd (handleSslState (-1) faulted)) = base faulted
  /\ List.length (since faulted (snd (handleSslState (-1) faulted))) = 2%nat
  /\ (fst (handleSslState 0 vanished) = Returns 0 -> 0 = 0 \/ 0 = 0).
Proof.
  pose proof (handleSslState_is_contained faulted (-1)) as Hf.
  pose proof (handleSslState_is_contained vanished 0) as Hv.
  cbv zeta in Hf, Hv.
  destruct Hf as [Hb _]. destruct Hv as [_ [_ [_ [_ [Hr _]]]]].
  split; [exact Hb |]. split; [reflexivity |]. exact (Hr 0).
Defined.

Lemma readData_clean_close_witness :
  _sslWantsTo closing_read = SslWantsTo.Read
  /\ fst (readData block closing_read) = Returns 0
  /\ _sslWantsTo (snd (readData block closing_read)) = SslWantsTo.Read.
Proof.
  split; [reflexivity |].
  assert (Hzero : 0 <= 0) by lia.
  pose proof (readData_clean_close closing_read block) as Hw.
  specialize (Hw eq_refl Hzero eq_refl). destruct Hw as [Hr [Hk _]].
  rewrite Hr. split; [reflexivity | exact Hk].
Defined.

Lemma handleSslState_reports_bio_code_witness :
  to_string (-2) = "-2"%string
  /\ fst (handleSslState (-2) vanished) = Throws "SSL BIO reported error [-2]."%string.
Proof.
  split; [reflexivity |].
  assert (Hlow : -2 < -1) by lia.
  pose proof (handleSslState_reports_bio_code vanished (-2)) as Hw.
  specialize (Hw eq_refl Hlow eq_refl eq_refl). exact (proj1 Hw).
Defined.

Lemma data_calls_return_engine_count_witness :
  readData block established = (Returns 42, snd (readData block established))
  /\ hd_error (since established (snd (readData block established)))
     = Some (Call_SSL_read block 42)
  /\ writeData 100 established = (Returns 100, snd (writeData 100 established))
  /\ 0 < 100.
Proof.
  pose proof (data_calls_return_engine_count established block 42
                (snd (readData block established))) as Hr.
  pose proof (data_calls_return_engine_count established 100 100
                (snd (writeData 100 established))) as Hw.
  specialize (Hr eq_refl). specialize (Hw eq_refl).
  destruct Hr as [Hr _]. destruct Hw as [_ Hw].
  specialize (Hr eq_refl). specialize (Hw eq_refl).
  destruct Hr as [_ [l [Hl _]]]. destruct Hw as [Hlen _].
  split; [reflexivity |]. split; [rewrite Hl; reflexivity |].
  split; [reflexivity | exact Hlen].
Defined.

Lemma ctor_releases_bio_on_failure_witness :
  bios_held (snd (SslStreamSocket_ctor 7 idle (mkPool 1 0 100 [] 0))) = 0
  /\ bios_held (snd (SslStreamSocket_ctor 7 idle (mkPool 1 1 100 [] 0))) = 0
  /\ bios_held (snd (SslStreamSocket_ctor 7 idle (mkPool 0 1 100 [] 0))) = 0.
Proof.
  split; [| split].
  - exact (proj1 (ctor_releases_bio_on_failure 7 idle (mkPool 1 0 100 [] 0))).
  - exact (proj1 (ctor_releases_bio_on_failure 7 idle (mkPool 1 1 100 [] 0))).
  - exact (proj1 (ctor_releases_bio_on_failure 7 idle (mkPool 0 1 100 [] 0))).
Defined.
